(** * Portfolio page script (assets/js/main.js): a shallow embedding

    The script is one client-side file.  It loads a developer's repositories
    from the hosting API, merges an optional curated document over them,
    filters them in the browser, renders a grid of cards and shows one
    repository's README in a modal that is addressed by the location hash.

    The embedding follows the script function by function.  Browser state the
    script reads or writes (storages, class lists, inputs, the grid, the
    modal, the location hash, the two globals [repos] and [curated]) is one
    record, [page]; functions thread it through a state-and-exception monad.
    Network answers are arguments of the functions that await them, and every
    request that is started is appended to a log.  An [async] listener runs
    from one [await] to the next; between two of its parts other listeners
    may run.  Writes that only decorate the page
    (the theme icon, the profile link, the label of the load button, the
    contact links) are left out. *)

From Stdlib Require Import ZArith String Ascii List.
From stdpp Require Import base option list strings gmap sorting.

Local Open Scope string_scope.
#[local] Set Warnings "-clear-no-such-hyp".

(** ** Strings

    JavaScript string methods the script calls, on [string]. *)

(** [s.startsWith(p)] *)
Fixpoint startsWith (s p : string) {struct p} : bool :=
  match p, s with
  | EmptyString, _ => true
  | String a p', String b s' => if Ascii.eqb a b then startsWith s' p' else false
  | String _ _, EmptyString => false
  end.

(** [s.includes(q)]: [q] occurs in [s] as a contiguous run. *)
Fixpoint includes (s q : string) : bool :=
  startsWith s q ||
  match s with
  | EmptyString => false
  | String _ s' => includes s' q
  end.

(** [s.slice(n)] for [0 <= n]. *)
Fixpoint slice_from (n : nat) (s : string) : string :=
  match n, s with
  | O, _ => s
  | S n', String _ s' => slice_from n' s'
  | S _, EmptyString => EmptyString
  end.

(** [s.replace(pat, "")] with a string pattern: the first occurrence of
    [pat] is removed, the rest of [s] is kept. *)
Fixpoint replace_first_empty (pat s : string) : string :=
  if startsWith s pat then slice_from (String.length pat) s
  else match s with
       | EmptyString => EmptyString
       | String c s' => String c (replace_first_empty pat s')
       end.

(** [s.replace(/\n/g, "")] *)
Fixpoint strip_newlines (s : string) : string :=
  match s with
  | EmptyString => EmptyString
  | String c s' =>
      if Ascii.eqb c "010"%char then strip_newlines s'
      else String c (strip_newlines s')
  end.

(** [parts.join(sep)] on an array of strings. *)
Fixpoint join (sep : string) (parts : list string) : string :=
  match parts with
  | [] => ""
  | [p] => p
  | p :: rest => p +:+ sep +:+ join sep rest
  end.

(** [s.split(sep)] for a one-character separator: never empty, the pieces
    between the separators in order. *)
Fixpoint split_on (sep : ascii) (s : string) : list string :=
  match s with
  | EmptyString => [EmptyString]
  | String c s' =>
      if Ascii.eqb c sep then EmptyString :: split_on sep s'
      else match split_on sep s' with
           | [] => [String c EmptyString]
           | p :: ps => String c p :: ps
           end
  end.

(** Truthiness of a string, and of a value that is a string, [null] or
    [undefined] ([None] stands for both). *)
Definition truthy_string (s : string) : bool :=
  match s with EmptyString => false | _ => true end.

Definition truthy_opt (o : option string) : bool :=
  match o with Some s => truthy_string s | None => false end.

(** [`${x}`] of a string or [undefined]. *)
Definition template (o : option string) : string :=
  match o with Some s => s | None => "undefined" end.

(** ** The location hash

    [history.replaceState(null, "", url)] parses [url] against the address
    of the page and [location.hash] reads the fragment of the result back.
    The functions below follow the URL standard on the part the script uses,
    a URL that holds a fragment.  A string is the sequence of its bytes, a
    character outside ASCII being its bytes in UTF-8. *)

(** A C0 control or a space. *)
Definition c0_or_space (c : ascii) : bool := (nat_of_ascii c <=? 32)%nat.

(** A tab or a line break. *)
Definition tab_or_newline (c : ascii) : bool :=
  let n := nat_of_ascii c in
  (n =? 9)%nat || (n =? 10)%nat || (n =? 13)%nat.

(** The parser drops the C0 controls and spaces at both ends of its input,
    and then every tab and line break. *)
Fixpoint drop_leading (s : string) : string :=
  match s with
  | String c s' => if c0_or_space c then drop_leading s' else s
  | EmptyString => EmptyString
  end.

Fixpoint drop_trailing (s : string) : string :=
  match s with
  | EmptyString => EmptyString
  | String c s' =>
      match drop_trailing s' with
      | EmptyString => if c0_or_space c then EmptyString else String c EmptyString
      | t => String c t
      end
  end.

Fixpoint drop_tabs_newlines (s : string) : string :=
  match s with
  | EmptyString => EmptyString
  | String c s' =>
      if tab_or_newline c then drop_tabs_newlines s'
      else String c (drop_tabs_newlines s')
  end.

(** The fragment percent-encode set: the C0 controls, the space, the double
    quote, "<", ">", the backquote, and every byte above "~". *)
Definition fragment_encoded (c : ascii) : bool :=
  let n := nat_of_ascii c in
  (n <=? 32)%nat || (127 <=? n)%nat
  || (n =? 34)%nat || (n =? 60)%nat || (n =? 62)%nat || (n =? 96)%nat.

Definition hex_digit (n : nat) : ascii :=
  if (n <? 10)%nat then ascii_of_nat (48 + n) else ascii_of_nat (55 + n).

(** "%" and the two upper-case hexadecimal digits of the byte. *)
Definition percent_encode (c : ascii) : string :=
  let n := nat_of_ascii c in
  String "%" (String (hex_digit (n / 16)) (String (hex_digit (n mod 16)) EmptyString)).

Fixpoint fragment_encode (s : string) : string :=
  match s with
  | EmptyString => EmptyString
  | String c s' =>
      if fragment_encoded c then percent_encode c +:+ fragment_encode s'
      else String c (fragment_encode s')
  end.

(** What follows the first "#" of a URL; [None] when it has none. *)
Fixpoint fragment_part (s : string) : option string :=
  match s with
  | EmptyString => None
  | String c s' => if Ascii.eqb c "#" then Some s' else fragment_part s'
  end.

(** [location.hash] once [history.replaceState(null, "", url)] has run: "#"
    and the encoded fragment, or "" when the fragment is missing or empty. *)
Definition hash_after_replaceState (url : string) : string :=
  match fragment_part (drop_tabs_newlines (drop_trailing (drop_leading url))) with
  | Some fragment =>
      if truthy_string fragment then String "#" (fragment_encode fragment) else ""
  | None => ""
  end.

(** ** Data *)

(** An entry of the curated document, read through the four properties the
    script uses: [repo], [description], [short] and [tags] (an array of
    strings).  [None] is a property that is absent. *)
Module Curated.
Record entry := Entry {
  repo : option string;
  description : option string;
  short : option string;
  tags : option (list string);
}.
End Curated.

(** A value standing where the script expects an entry: an element of the
    document when it is an array, a property value when it is an object.  An
    array in that place is never looked into.  [VNative] is a function or an
    object of the language's library, as a property read finds them on a
    prototype: it is truthy and has none of the properties of an entry. *)
Inductive value :=
| VNull
| VBool (b : bool)
| VNum (n : Z)
| VStr (s : string)
| VArray
| VEntry (e : Curated.entry)
| VNative.

(** The parsed body of /projects/projects.json, and the values the global
    [curated] takes. *)
Inductive document :=
| DNull
| DBool (b : bool)
| DNum (n : Z)
| DStr (s : string)
| DArray (elems : list value)
| DObject (props : gmap string value).

(** JavaScript truthiness. *)
Definition truthy (v : value) : bool :=
  match v with
  | VNull => false
  | VBool b => b
  | VNum n => negb (n =? 0)%Z
  | VStr s => truthy_string s
  | VArray | VEntry _ | VNative => true
  end.

Definition truthy_doc (d : document) : bool :=
  match d with
  | DNull => false
  | DBool b => b
  | DNum n => negb (n =? 0)%Z
  | DStr s => truthy_string s
  | DArray _ | DObject _ => true
  end.

Definition truthy_value_opt (o : option value) : bool :=
  match o with Some v => truthy v | None => false end.

(** [v.p] for a value that is not [null]: only an entry has the property. *)
Definition field {A} (p : Curated.entry → option A) (v : value) : option A :=
  match v with
  | VEntry e => p e
  | _ => None
  end.

(** ** The host environment

    Built-ins of the browser and the two libraries the page loads beside the
    script.  The script only calls them, so the model takes them as an
    interface; every result below holds for every implementation. *)
Class Host := {
  (** [String.prototype.toLowerCase] *)
  toLowerCase : string → string;
  (** [String.prototype.trim] *)
  trim : string → string;
  (** [decodeURIComponent]; [None] when it throws [URIError] *)
  decodeURIComponent : string → option string;
  (** [atob]; [None] when it throws on input that is not base64 *)
  atob : string → option string;
  (** [marked.parse] *)
  marked_parse : string → string;
  (** [DOMPurify.sanitize] with the [ADD_TAGS]/[ADD_ATTR] options of
      [openProject] *)
  DOMPurify_sanitize : string → string;
  (** [new Date(s).toLocaleDateString()] *)
  toLocaleDateString : string → string;
  (** [v[name]] for a [v] that is not a plain object but a string, a number,
      a boolean or an array: its length and its elements, and what it
      inherits from the prototype of its kind, whose methods differ from
      one browser to the next; [None] is [undefined] *)
  non_object_get : document → string → option value;
}.

(** The properties a plain object inherits from [Object.prototype]: the
    methods of ECMAScript and of its annex B, and [__proto__], which reads
    as the prototype itself. *)
Definition Object_prototype : list string :=
  ["constructor"; "hasOwnProperty"; "isPrototypeOf"; "propertyIsEnumerable";
   "toLocaleString"; "toString"; "valueOf"; "__proto__";
   "__defineGetter__"; "__defineSetter__"; "__lookupGetter__"; "__lookupSetter__"].

(** [curated[name]], read behind the guard [curated &&]; [None] is
    [undefined].  On an object it finds the property of that name the object
    has of its own and, when it has none, the one it inherits. *)
Definition doc_get {host : Host} (d : document) (name : string) : option value :=
  match d with
  | DObject props =>
      match props !! name with
      | Some v => Some v
      | None => if bool_decide (name ∈ Object_prototype) then Some VNative else None
      end
  | DNull => None
  | _ => non_object_get d name
  end.

(** A repository summary as the hosting API returns it, with the property
    [_curated] the script adds ([None] until then). *)
Record repo := Repo {
  name : string;
  full_name : string;
  description : option string;
  language : option string;
  stargazers_count : Z;
  html_url : string;
  homepage : option string;
  updated_at : string;
  _curated : option value;
}.

(** What the script throws or lets through. *)
Inductive js_error :=
| FetchFailed                     (* fetch() rejected *)
| BodyNotJson                     (* res.json() rejected *)
| GitHubApiError (status : Z)     (* new Error(`GitHub API error: ${res.status}`) *)
| TypeErrorReading (prop : string)(* a property read on null or undefined *)
| URIError
| InvalidCharacter.               (* atob on input that is not base64 *)

(** The answer to one [fetch]: it rejects, or resolves to a response whose
    body parses as JSON ([Some]) or does not ([None]). *)
Inductive answer (A : Type) :=
| NetworkFailure
| Response (ok : bool) (status : Z) (body : option A).
Arguments NetworkFailure {A}.
Arguments Response {A} ok status body.

(** Bodies of the two detail endpoints, by the property the script reads. *)
Record topics_json := TopicsJson { names : option (list string) }.
Record readme_json := ReadmeJson { content : option string }.

(** A request as [fetch] is called: the URL, the headers object in insertion
    order, and whether [cache: "no-store"] was given. *)
Record request := Request {
  url : string;
  headers : list (string * string);
  no_store : bool;
}.

(** One card of the grid: the values the template of [renderGrid] puts into
    the card's markup. *)
Record card := Card {
  card_data_repo : string;          (* data-repo of the title link *)
  card_title : string;
  card_text : string;
  card_chips : list string;
  card_stars : Z;
  card_open_href : string;
  card_repo_href : string;
}.

(** The detail view: the values the second template of [openProject] puts
    into the modal. *)
Record detail_view := DetailView {
  view_title : string;
  view_text : string;
  view_updated : string;
  view_stars : Z;
  view_chips : list string;
  view_repo_href : string;
  view_live_href : option string;
  view_readme_html : string;
}.

(** What [projectDetail.innerHTML] is set to. *)
Inductive detail :=
| DetailEmpty                         (* "" *)
| DetailLoading (heading : string)    (* heading and "Loading details" *)
| DetailShown (v : detail_view)
| DetailError (e : js_error).         (* "Could not load project details: " and the message *)

(** Calls of [alert]. *)
Inductive alert_message :=
| TokenCleared
| ErrorLoadingRepos (e : js_error).

(** A listener that is suspended at an [await], with what it still needs
    of its variables when it goes on. *)
Inductive suspended :=
| LoadAwaitsCurated (username : string)  (* the load listener, at [await loadCurated] *)
| LoadAwaitsRepos                        (* the load listener, at [await fetchRepos] *)
| OpenAwaitsDetails (r : option repo).   (* [openProject], at [await Promise.all] *)

(** What a suspended listener is handed when it goes on. *)
Inductive arrival :=
| CuratedArrived (ans : answer document)
| ReposArrived (ans : answer (list repo))
| DetailsArrived (ansT : answer topics_json) (ansR : answer readme_json).

(** ** The page

    Everything the script reads or writes that outlives one function call,
    and the listeners that are suspended. *)
Record page := Page {
  localStorage : gmap string string;    (* window.localStorage *)
  sessionStorage : gmap string string;  (* window.sessionStorage *)
  root_classes : gset string;           (* document.documentElement.classList *)
  usernameInput : string;               (* #github-username .value *)
  tokenInput : string;                  (* #github-token .value *)
  searchInput : string;                 (* #search .value *)
  langFilter : string;                  (* #lang-filter .value *)
  langFilter_options : list string;     (* the option values of #lang-filter *)
  projectsGrid : list card;             (* the children of #projects-grid *)
  projectsEmpty : gset string;          (* #projects-empty .classList *)
  projectModal : gset string;           (* #project-modal .classList *)
  projectDetail : detail;               (* #project-detail .innerHTML *)
  hash : string;                        (* location.hash *)
  repos : list repo;                    (* let repos *)
  curated : document;                   (* let curated *)
  alerts : list alert_message;          (* calls of alert, oldest first *)
  requests : list request;              (* calls of fetch, oldest first *)
  pending : list (option suspended);    (* the listeners that were suspended, in the
                                           order they started; [None] once finished *)
}.

(** Assignments to one part of the page: every other part is kept. *)
Definition set_localStorage (x : gmap string string) (st : page) : page :=
  Page x (sessionStorage st) (root_classes st) (usernameInput st)
    (tokenInput st) (searchInput st) (langFilter st) (langFilter_options st)
    (projectsGrid st) (projectsEmpty st) (projectModal st) (projectDetail st)
    (hash st) (repos st) (curated st) (alerts st) (requests st) (pending st).
Definition set_sessionStorage (x : gmap string string) (st : page) : page :=
  Page (localStorage st) x (root_classes st) (usernameInput st) (tokenInput
    st) (searchInput st) (langFilter st) (langFilter_options st) (projectsGrid
    st) (projectsEmpty st) (projectModal st) (projectDetail st) (hash st)
    (repos st) (curated st) (alerts st) (requests st) (pending st).
Definition set_root_classes (x : gset string) (st : page) : page :=
  Page (localStorage st) (sessionStorage st) x (usernameInput st)
    (tokenInput st) (searchInput st) (langFilter st) (langFilter_options st)
    (projectsGrid st) (projectsEmpty st) (projectModal st) (projectDetail st)
    (hash st) (repos st) (curated st) (alerts st) (requests st) (pending st).
Definition set_usernameInput (x : string) (st : page) : page :=
  Page (localStorage st) (sessionStorage st) (root_classes st) x (tokenInput
    st) (searchInput st) (langFilter st) (langFilter_options st) (projectsGrid
    st) (projectsEmpty st) (projectModal st) (projectDetail st) (hash st)
    (repos st) (curated st) (alerts st) (requests st) (pending st).
Definition set_tokenInput (x : string) (st : page) : page :=
  Page (localStorage st) (sessionStorage st) (root_classes st)
    (usernameInput st) x (searchInput st) (langFilter st) (langFilter_options
    st) (projectsGrid st) (projectsEmpty st) (projectModal st) (projectDetail
    st) (hash st) (repos st) (curated st) (alerts st) (requests st) (pending
    st).
Definition set_searchInput (x : string) (st : page) : page :=
  Page (localStorage st) (sessionStorage st) (root_classes st)
    (usernameInput st) (tokenInput st) x (langFilter st) (langFilter_options
    st) (projectsGrid st) (projectsEmpty st) (projectModal st) (projectDetail
    st) (hash st) (repos st) (curated st) (alerts st) (requests st) (pending
    st).
Definition set_langFilter (x : string) (st : page) : page :=
  Page (localStorage st) (sessionStorage st) (root_classes st)
    (usernameInput st) (tokenInput st) (searchInput st) x (langFilter_options
    st) (projectsGrid st) (projectsEmpty st) (projectModal st) (projectDetail
    st) (hash st) (repos st) (curated st) (alerts st) (requests st) (pending
    st).
Definition set_langFilter_options (x : list string) (st : page) : page :=
  Page (localStorage st) (sessionStorage st) (root_classes st)
    (usernameInput st) (tokenInput st) (searchInput st) (langFilter st) x
    (projectsGrid st) (projectsEmpty st) (projectModal st) (projectDetail st)
    (hash st) (repos st) (curated st) (alerts st) (requests st) (pending st).
Definition set_projectsGrid (x : list card) (st : page) : page :=
  Page (localStorage st) (sessionStorage st) (root_classes st)
    (usernameInput st) (tokenInput st) (searchInput st) (langFilter st)
    (langFilter_options st) x (projectsEmpty st) (projectModal st)
    (projectDetail st) (hash st) (repos st) (curated st) (alerts st) (requests
    st) (pending st).
Definition set_projectsEmpty (x : gset string) (st : page) : page :=
  Page (localStorage st) (sessionStorage st) (root_classes st)
    (usernameInput st) (tokenInput st) (searchInput st) (langFilter st)
    (langFilter_options st) (projectsGrid st) x (projectModal st)
    (projectDetail st) (hash st) (repos st) (curated st) (alerts st) (requests
    st) (pending st).
Definition set_projectModal (x : gset string) (st : page) : page :=
  Page (localStorage st) (sessionStorage st) (root_classes st)
    (usernameInput st) (tokenInput st) (searchInput st) (langFilter st)
    (langFilter_options st) (projectsGrid st) (projectsEmpty st) x
    (projectDetail st) (hash st) (repos st) (curated st) (alerts st) (requests
    st) (pending st).
Definition set_projectDetail (x : detail) (st : page) : page :=
  Page (localStorage st) (sessionStorage st) (root_classes st)
    (usernameInput st) (tokenInput st) (searchInput st) (langFilter st)
    (langFilter_options st) (projectsGrid st) (projectsEmpty st) (projectModal
    st) x (hash st) (repos st) (curated st) (alerts st) (requests st) (pending
    st).
Definition set_hash (x : string) (st : page) : page :=
  Page (localStorage st) (sessionStorage st) (root_classes st)
    (usernameInput st) (tokenInput st) (searchInput st) (langFilter st)
    (langFilter_options st) (projectsGrid st) (projectsEmpty st) (projectModal
    st) (projectDetail st) x (repos st) (curated st) (alerts st) (requests st)
    (pending st).
Definition set_repos (x : list repo) (st : page) : page :=
  Page (localStorage st) (sessionStorage st) (root_classes st)
    (usernameInput st) (tokenInput st) (searchInput st) (langFilter st)
    (langFilter_options st) (projectsGrid st) (projectsEmpty st) (projectModal
    st) (projectDetail st) (hash st) x (curated st) (alerts st) (requests st)
    (pending st).
Definition set_curated (x : document) (st : page) : page :=
  Page (localStorage st) (sessionStorage st) (root_classes st)
    (usernameInput st) (tokenInput st) (searchInput st) (langFilter st)
    (langFilter_options st) (projectsGrid st) (projectsEmpty st) (projectModal
    st) (projectDetail st) (hash st) (repos st) x (alerts st) (requests st)
    (pending st).
Definition set_alerts (x : list alert_message) (st : page) : page :=
  Page (localStorage st) (sessionStorage st) (root_classes st)
    (usernameInput st) (tokenInput st) (searchInput st) (langFilter st)
    (langFilter_options st) (projectsGrid st) (projectsEmpty st) (projectModal
    st) (projectDetail st) (hash st) (repos st) (curated st) x (requests st)
    (pending st).
Definition set_requests (x : list request) (st : page) : page :=
  Page (localStorage st) (sessionStorage st) (root_classes st)
    (usernameInput st) (tokenInput st) (searchInput st) (langFilter st)
    (langFilter_options st) (projectsGrid st) (projectsEmpty st) (projectModal
    st) (projectDetail st) (hash st) (repos st) (curated st) (alerts st) x
    (pending st).
Definition set_pending (x : list (option suspended)) (st : page) : page :=
  Page (localStorage st) (sessionStorage st) (root_classes st)
    (usernameInput st) (tokenInput st) (searchInput st) (langFilter st)
    (langFilter_options st) (projectsGrid st) (projectsEmpty st) (projectModal
    st) (projectDetail st) (hash st) (repos st) (curated st) (alerts st)
    (requests st) x.

(** ** Control: state and exceptions

    A function of the script runs on the page and returns or throws; an
    [async] function that rejects is one that throws where it is awaited. *)
Inductive outcome (A : Type) :=
| Returned (a : A)
| Thrown (e : js_error).
Arguments Returned {A} a.
Arguments Thrown {A} e.

Definition M (A : Type) : Type := page → outcome A * page.

#[export] Instance M_ret : MRet M := λ A a st, (Returned a, st).

#[export] Instance M_bind : MBind M := λ A B k m st,
  match m st with
  | (Returned a, st') => k a st'
  | (Thrown e, st') => (Thrown e, st')
  end.

Definition throw {A} (e : js_error) : M A := λ st, (Thrown e, st).

(** [try { m } catch (e) { h e }] and [promise.catch(h)] *)
Definition try_catch {A} (m : M A) (h : js_error → M A) : M A := λ st,
  match m st with
  | (Returned a, st') => (Returned a, st')
  | (Thrown e, st') => h e st'
  end.

Definition gets {A} (f : page → A) : M A := λ st, (Returned (f st), st).
Definition modify (f : page → page) : M unit := λ st, (Returned tt, f st).

(** The page a handler leaves behind, whether it returned or threw. *)
Definition run {A} (m : M A) (st : page) : page := (m st).2.

(** [fetch(url, {headers, cache})] up to its first suspension: the request
    is on its way. *)
Definition fetch_start (rq : request) : M unit :=
  modify (λ st, set_requests (requests st ++ [rq]) st).

(** [await] of the promise [fetch] returned. *)
Definition fetch_settle {A} (ans : answer A) : M (bool * Z * option A) :=
  match ans with
  | NetworkFailure => throw FetchFailed
  | Response ok status body => mret (ok, status, body)
  end.

(** [await res.json()] *)
Definition res_json {A} (body : option A) : M A :=
  match body with
  | Some json => mret json
  | None => throw BodyNotJson
  end.

(** [classList.add], [classList.remove], [classList.contains] *)
Definition class_add (c : string) (cl : gset string) : gset string := cl ∪ {[c]}.
Definition class_remove (c : string) (cl : gset string) : gset string := cl ∖ {[c]}.
Definition class_contains (c : string) (cl : gset string) : bool := bool_decide (c ∈ cl).

(** An element styled by the utility class "hidden" is displayed when it
    does not carry the class. *)
Definition visible (cl : gset string) : Prop := "hidden" ∉ cl.

Definition DEFAULT_USERNAME : string := "erwanngao-maker".

(** The double quote, for markup that carries attribute values. *)
Definition dquote : string := String (ascii_of_nat 34) EmptyString.

(** ** Theme and session token *)

Definition applyTheme (theme : string) (st : page) : page :=
  let st :=
    if String.eqb theme "dark"
    then set_root_classes (class_add "dark" (root_classes st)) st
    else set_root_classes (class_remove "dark" (root_classes st)) st in
  set_localStorage (<["theme" := theme]> (localStorage st)) st.

(** The click listener of the theme toggle. *)
Definition themeToggle_click (st : page) : page :=
  let next := if class_contains "dark" (root_classes st) then "light" else "dark" in
  applyTheme next st.

(** [storage.getItem(k) || fallback] *)
Definition getItem_or (storage : gmap string string) (k fallback : string) : string :=
  match storage !! k with
  | Some v => if truthy_string v then v else fallback
  | None => fallback
  end.

Definition sessionToken (st : page) : string :=
  getItem_or (sessionStorage st) "GHTOKEN" "".

Definition setSessionToken (t : string) (st : page) : page :=
  if truthy_string t
  then set_sessionStorage (<["GHTOKEN" := t]> (sessionStorage st)) st
  else set_sessionStorage (delete "GHTOKEN" (sessionStorage st)) st.

(** The click listener of the clear-token button. *)
Definition clearToken_click (st : page) : page :=
  let st := setSessionToken "" st in
  let st := set_tokenInput "" st in
  set_alerts (alerts st ++ [TokenCleared]) st.

(** The statements the script runs when it is loaded, listeners apart. *)
Definition script_start (st : page) : page :=
  let st := set_usernameInput DEFAULT_USERNAME st in
  let st := applyTheme (getItem_or (localStorage st) "theme" "dark") st in
  set_tokenInput (sessionToken st) st.

(** ** Fetching *)

Section Script.
Context {host : Host}.

Definition buildHeaders (acceptPreview : bool) (st : page) : list (string * string) :=
  let t := if truthy_string (sessionToken st) then sessionToken st
           else trim (tokenInput st) in
  [("Content-Type", "application/json")]
  ++ (if truthy_string t then [("Authorization", "token " +:+ t)] else [])
  ++ (if acceptPreview
      then [("Accept", "application/vnd.github.mercy-preview+json")]
      else []).

(** [p.repo] where [p] may be anything the array holds: reading a property
    of [null] throws. *)
Definition read_repo (p : value) : M (option string) :=
  match p with
  | VNull => throw (TypeErrorReading "repo")
  | _ => mret (field Curated.repo p)
  end.

(** The loop [for (const p of json) if (p.repo) obj[p.repo] = p].  The
    assignment makes a property of [obj] for every key but "__proto__",
    which it would take for the prototype of [obj]; that key is taken not
    to occur as the [repo] of an element. *)
Fixpoint loadCurated_loop (elems : list value) (obj : gmap string value)
  : M (gmap string value) :=
  match elems with
  | [] => mret obj
  | p :: rest =>
      key ← read_repo p;
      match key with
      | Some k => if truthy_string k
                  then loadCurated_loop rest (<[k := p]> obj)
                  else loadCurated_loop rest obj
      | None => loadCurated_loop rest obj
      end
  end.

Definition loadCurated (username : string) (ans : answer document) : M document :=
  try_catch
    (fetch_start (Request "/projects/projects.json" [] true);;
     res ← fetch_settle ans;
     let '(ok, _, body) := res in
     if negb ok then mret (DObject ∅) else
     json ← res_json body;
     match json with
     | DArray elems =>
         obj ← loadCurated_loop elems ∅;
         mret (DObject obj)
     | _ => mret (if truthy_doc json then json else DObject ∅)
     end)
    (λ _, mret (DObject ∅)).

Definition fetchRepos_url (username : string) : string :=
  "https://api.github.com/users/" +:+ username +:+ "/repos?per_page=100&sort=updated".

Definition fetchRepos (username : string) (ans : answer (list repo)) : M (list repo) :=
  hdrs ← gets (buildHeaders false);
  fetch_start (Request (fetchRepos_url username) hdrs false);;
  res ← fetch_settle ans;
  let '(ok, status, body) := res in
  if negb ok then throw (GitHubApiError status) else
  data ← res_json body;
  mret data.

(** [fetchTopics] in two parts: up to the [await] of [fetch], where the
    request has been started, and from there on. *)
Definition fetchTopics_url (owner repo : option string) : string :=
  "https://api.github.com/repos/" +:+ template owner +:+ "/" +:+ template repo +:+ "/topics".

Definition fetchTopics_start (owner repo : option string) : M unit :=
  hdrs ← gets (buildHeaders true);
  fetch_start (Request (fetchTopics_url owner repo) hdrs false).

Definition fetchTopics_resume (ans : answer topics_json) : M (list string) :=
  res ← fetch_settle ans;
  let '(ok, _, body) := res in
  if negb ok then mret [] else
  json ← res_json body;
  mret (default [] (names json)).

Definition fetchTopics (owner repo : option string) (ans : answer topics_json)
  : M (list string) :=
  fetchTopics_start owner repo;; fetchTopics_resume ans.

(** [fetchReadme], in the same two parts.  It returns the decoded text or
    [null]. *)
Definition fetchReadme_url (owner repo : option string) : string :=
  "https://api.github.com/repos/" +:+ template owner +:+ "/" +:+ template repo +:+ "/readme".

Definition fetchReadme_start (owner repo : option string) : M unit :=
  hdrs ← gets (buildHeaders false);
  fetch_start (Request (fetchReadme_url owner repo) hdrs false).

Definition fetchReadme_resume (ans : answer readme_json) : M (option string) :=
  res ← fetch_settle ans;
  let '(ok, _, body) := res in
  if negb ok then mret None else
  json ← res_json body;
  if truthy_opt (content json) then
    match atob (strip_newlines (default "" (content json))) with
    | Some decoded => mret (Some decoded)
    | None => throw InvalidCharacter
    end
  else mret None.

Definition fetchReadme (owner repo : option string) (ans : answer readme_json)
  : M (option string) :=
  fetchReadme_start owner repo;; fetchReadme_resume ans.

(** ** The grid *)

(** [r._curated && r._curated.p] *)
Definition curated_field {A} (p : Curated.entry → option A) (r : repo) : option A :=
  match _curated r with
  | Some v => if truthy v then field p v else None
  | None => None
  end.

(** The markup of one card, by the values of its template.  The text that
    stands in for a missing description is the three characters the source
    file holds there. *)
Definition card_of (r : repo) : card :=
  {| card_data_repo := full_name r;
     card_title := name r;
     card_text :=
       if truthy_opt (description r) then default "" (description r)
       else if truthy_opt (curated_field Curated.short r)
            then default "" (curated_field Curated.short r)
            else "â€”";
     card_chips :=
       match curated_field Curated.tags r with
       | Some ts => ts
       | None => if truthy_opt (language r) then [default "" (language r)] else []
       end;
     card_stars := stargazers_count r;
     card_open_href :=
       if truthy_opt (homepage r) then default "" (homepage r) else html_url r;
     card_repo_href := html_url r |}.

(** The loop [for (const r of list) projectsGrid.appendChild(card)];
    [items] is the script's [list]. *)
Definition append_cards (items : list repo) (grid : list card) : list card :=
  fold_left (λ g r, (g ++ [card_of r])%list) items grid.

Definition renderGrid (items : list repo) (st : page) : page :=
  let st := set_projectsGrid [] st in
  match items with
  | [] => set_projectsEmpty (class_remove "hidden" (projectsEmpty st)) st
  | _ :: _ =>
      let st := set_projectsEmpty (class_add "hidden" (projectsEmpty st)) st in
      set_projectsGrid (append_cards items (projectsGrid st)) st
  end.

(** ** Filters *)

(** [strings.sort()] on distinct strings: insertion into increasing order. *)
Fixpoint sort_insert (s : string) (sorted : list string) : list string :=
  match sorted with
  | [] => [s]
  | t :: rest => if String.leb s t then s :: t :: rest else t :: sort_insert s rest
  end.

Definition sort_strings (l : list string) : list string :=
  foldr sort_insert [] l.

(** [array.filter(Boolean)] on strings that may be [null] or [undefined]. *)
Definition omit_falsy (l : list (option string)) : list string :=
  omap (λ o, if truthy_opt o then o else None) l.

(** The option values of the language filter after [buildLangOptions]:
    "All languages" has the value "".  Replacing the options leaves the first
    one selected. *)
Definition buildLangOptions (items : list repo) (st : page) : page :=
  let langs := sort_strings (remove_dups (omit_falsy (map language items))) in
  let st := set_langFilter_options ("" :: langs) st in
  set_langFilter "" st.

(** [r._curated && r._curated.tags ? r._curated.tags.join(" ") : ""] *)
Definition tags_joined (r : repo) : string :=
  match curated_field Curated.tags r with
  | Some ts => join " " ts
  | None => ""
  end.

(** [hay] in the callback of [applyFilters]. *)
Definition hay (r : repo) : string :=
  toLowerCase
    (join " " (omit_falsy [Some (name r); description r; language r;
                           Some (tags_joined r)])).

(** The callback given to [repos.filter]. *)
Definition keeps (q lang : string) (r : repo) : bool :=
  if truthy_string lang && negb (bool_decide (language r = Some lang)) then false
  else if negb (truthy_string q) then true
  else includes (hay r) q.

(** [filtered] in [applyFilters]. *)
Definition filtered (st : page) : list repo :=
  let q := toLowerCase (trim (searchInput st)) in
  let lang := langFilter st in
  List.filter (keeps q lang) (repos st).

Definition applyFilters (st : page) : page :=
  renderGrid (filtered st) st.

(** ** The modal *)

Definition project_prefix : string := "#/project/".

Definition no_readme_html : string :=
  "<p class=" +:+ dquote +:+ "text-sm text-slate-500" +:+ dquote
  +:+ ">No README found.</p>".

(** [mdHtml] in [openProject], from what [fetchReadme] gave. *)
Definition readme_html (readme : option string) : string :=
  if truthy_opt readme
  then DOMPurify_sanitize (marked_parse (default "" readme))
  else no_readme_html.

(** The values the second template of [openProject] takes from [r], the
    topics and [mdHtml]. *)
Definition detail_view_of (r : repo) (topics : list string) (mdHtml : string)
  : detail_view :=
  {| view_title := name r;
     view_text := if truthy_opt (description r)
                  then default "" (description r) else "";
     view_updated := toLocaleDateString (updated_at r);
     view_stars := stargazers_count r;
     view_chips := default [] (curated_field Curated.tags r) ++ topics;
     view_repo_href := html_url r;
     view_live_href := if truthy_opt (homepage r) then homepage r else None;
     view_readme_html := mdHtml |}.

(** Evaluating that template.  Its first interpolation reads [r.name]; with
    [r] undefined that read throws. *)
Definition detail_template (r : option repo) (topics : list string)
    (mdHtml : string) : M detail_view :=
  match r with
  | None => throw (TypeErrorReading "name")
  | Some r => mret (detail_view_of r topics mdHtml)
  end.

(** [repos.find(x => x.full_name.toLowerCase() === fullName.toLowerCase())] *)
Definition find_repo (fullName : string) (st : page) : option repo :=
  List.find (λ x, String.eqb (toLowerCase (full_name x)) (toLowerCase fullName))
            (repos st).

(** [openProject] up to the [await] of [Promise.all]: both fetch functions
    have been called, so both requests are started before either answer is
    looked at.  It hands [r] to the rest of the function. *)
Definition openProject_start (fullName : string) : M (option repo) :=
  modify (set_hash (hash_after_replaceState (project_prefix +:+ fullName)));;
  let parts := split_on "/" fullName in
  let owner := parts !! 0%nat in
  let repo := parts !! 1%nat in
  modify (λ st, set_projectModal (class_remove "hidden" (projectModal st)) st);;
  modify (set_projectDetail (DetailLoading (template repo)));;
  r ← gets (find_repo fullName);
  fetchTopics_start owner repo;;
  fetchReadme_start owner repo;;
  mret r.

(** [openProject] from there on, inside its [try]. *)
Definition openProject_resume (r : option repo)
    (ansT : answer topics_json) (ansR : answer readme_json) : M unit :=
  try_catch
    (topics ← try_catch (fetchTopics_resume ansT) (λ _, mret []);
     readme ← try_catch (fetchReadme_resume ansR) (λ _, mret None);
     view ← detail_template r topics (readme_html readme);
     modify (set_projectDetail (DetailShown view)))
    (λ err, modify (set_projectDetail (DetailError err))).

Definition openProject (fullName : string)
    (ansT : answer topics_json) (ansR : answer readme_json) : M unit :=
  r ← openProject_start fullName;
  openProject_resume r ansT ansR.

Definition closeModal (st : page) : page :=
  let st := set_projectModal (class_add "hidden" (projectModal st)) st in
  let st := set_projectDetail DetailEmpty st in
  if startsWith (hash st) project_prefix then set_hash "" st else st.

Definition handleHash (ansT : answer topics_json) (ansR : answer readme_json)
  : M unit :=
  h ← gets hash;
  if startsWith h project_prefix then
    match decodeURIComponent (replace_first_empty project_prefix h) with
    | Some full => openProject full ansT ansR
    | None => throw URIError
    end
  else modify closeModal.

(** ** Loading *)

(** [r._curated = c] and [r.description = d] on a summary. *)
Definition with_curated (c : option value) (r : repo) : repo :=
  {| name := name r; full_name := full_name r; description := description r;
     language := language r; stargazers_count := stargazers_count r;
     html_url := html_url r; homepage := homepage r; updated_at := updated_at r;
     _curated := c |}.

Definition with_description (d : option string) (r : repo) : repo :=
  {| name := name r; full_name := full_name r; description := d;
     language := language r; stargazers_count := stargazers_count r;
     html_url := html_url r; homepage := homepage r; updated_at := updated_at r;
     _curated := _curated r |}.

(** [curated[name].description], read once [curated[name]] is truthy. *)
Definition curated_description (c : option value) : option string :=
  match c with
  | Some v => field Curated.description v
  | None => None
  end.

(** The callback given to [fetched.map] in the click listener of the load
    button; [cur] is the global [curated]. *)
Definition merge_curated (cur : document) (r : repo) : repo :=
  let c := doc_get cur (name r) in
  if truthy_doc cur && truthy_value_opt c then
    let r := with_curated c r in
    if truthy_opt (curated_description c)
    then with_description (curated_description c) r
    else r
  else r.

(** The click listener of the load button.  The link to the profile and the
    label of the button, which it also sets, are left out. *)
Definition loadBtn_click (ansC : answer document) (ansF : answer (list repo))
    (ansT : answer topics_json) (ansR : answer readme_json) : M unit :=
  username ← gets (λ st, if truthy_string (trim (usernameInput st))
                         then trim (usernameInput st) else DEFAULT_USERNAME);
  token ← gets (λ st, trim (tokenInput st));
  (if truthy_string token then modify (setSessionToken token) else mret tt);;
  try_catch
    (cur ← loadCurated username ansC;
     modify (set_curated cur);;
     fetched ← fetchRepos username ansF;
     modify (λ st, set_repos (map (merge_curated (curated st)) fetched) st);;
     modify (λ st, buildLangOptions (repos st) st);;
     modify applyFilters;;
     handleHash ansT ansR)
    (λ err, modify (λ st, set_alerts (alerts st ++ [ErrorLoadingRepos err]) st)).

(** ** Listeners that wait

    An [async] function runs up to its first [await] and goes on when the
    answer is there; other listeners run in between.  Here are the functions
    above in the parts they run in.  A part returns what the listener waits
    for next, if it is not finished. *)

(** [loadCurated] up to the [await] of [fetch], and from there on. *)
Definition loadCurated_start : M unit :=
  fetch_start (Request "/projects/projects.json" [] true).

Definition loadCurated_resume (ans : answer document) : M document :=
  try_catch
    (res ← fetch_settle ans;
     let '(ok, _, body) := res in
     if negb ok then mret (DObject ∅) else
     json ← res_json body;
     match json with
     | DArray elems =>
         obj ← loadCurated_loop elems ∅;
         mret (DObject obj)
     | _ => mret (if truthy_doc json then json else DObject ∅)
     end)
    (λ _, mret (DObject ∅)).

(** [fetchRepos], likewise. *)
Definition fetchRepos_start (username : string) : M unit :=
  hdrs ← gets (buildHeaders false);
  fetch_start (Request (fetchRepos_url username) hdrs false).

Definition fetchRepos_resume (ans : answer (list repo)) : M (list repo) :=
  res ← fetch_settle ans;
  let '(ok, status, body) := res in
  if negb ok then throw (GitHubApiError status) else
  data ← res_json body;
  mret data.

(** A call of [openProject] that is not awaited: the function runs up to its
    [await] and is left to go on by itself. *)
Definition openProject_call (fullName : string) : M (option suspended) :=
  r ← openProject_start fullName;
  mret (Some (OpenAwaitsDetails r)).

(** [handleHash] as a listener: it does not await the [openProject] it
    calls. *)
Definition handleHash_call : M (option suspended) :=
  h ← gets hash;
  if startsWith h project_prefix then
    match decodeURIComponent (replace_first_empty project_prefix h) with
    | Some full => openProject_call full
    | None => throw URIError
    end
  else modify closeModal;; mret None.

Definition alert_error (err : js_error) : M (option suspended) :=
  modify (λ st, set_alerts (alerts st ++ [ErrorLoadingRepos err]) st);;
  mret None.

(** The click listener of the load button in its three parts: up to
    [await loadCurated(username)], from there to [await fetchRepos(username)],
    and from there to its end. *)
Definition loadBtn_click_start : M (option suspended) :=
  username ← gets (λ st, if truthy_string (trim (usernameInput st))
                         then trim (usernameInput st) else DEFAULT_USERNAME);
  token ← gets (λ st, trim (tokenInput st));
  (if truthy_string token then modify (setSessionToken token) else mret tt);;
  try_catch
    (loadCurated_start;;
     mret (Some (LoadAwaitsCurated username)))
    alert_error.

Definition loadBtn_click_curated (username : string) (ansC : answer document)
  : M (option suspended) :=
  try_catch
    (cur ← loadCurated_resume ansC;
     modify (set_curated cur);;
     fetchRepos_start username;;
     mret (Some LoadAwaitsRepos))
    alert_error.

Definition loadBtn_click_repos (ansF : answer (list repo)) : M (option suspended) :=
  try_catch
    (fetched ← fetchRepos_resume ansF;
     modify (λ st, set_repos (map (merge_curated (curated st)) fetched) st);;
     modify (λ st, buildLangOptions (repos st) st);;
     modify applyFilters;;
     handleHash_call)
    alert_error.

(** The part a suspended listener runs when it is handed an answer; [None]
    when the answer is not the one it waits for. *)
Definition resume (task : suspended) (a : arrival) : option (M (option suspended)) :=
  match task, a with
  | LoadAwaitsCurated username, CuratedArrived ans =>
      Some (loadBtn_click_curated username ans)
  | LoadAwaitsRepos, ReposArrived ans => Some (loadBtn_click_repos ans)
  | OpenAwaitsDetails r, DetailsArrived ansT ansR =>
      Some (openProject_resume r ansT ansR;; mret None)
  | _, _ => None
  end.

(** A listener is called: it runs its first part, and what it then waits
    for joins the suspended listeners.  An error it lets through ends it. *)
Definition launch (m : M (option suspended)) (st : page) : page :=
  match m st with
  | (Returned (Some task), st') => set_pending (pending st' ++ [Some task]) st'
  | (Returned None, st') => st'
  | (Thrown _, st') => st'
  end.

(** The suspended listener in place [k] goes on with part [m]. *)
Definition go_on (k : nat) (m : M (option suspended)) (st : page) : page :=
  match m st with
  | (Returned next, st') => set_pending (<[k := next]> (pending st')) st'
  | (Thrown _, st') => set_pending (<[k := None]> (pending st')) st'
  end.

(** ** Events

    What can happen to the page: the user acts, the hash changes, the timer
    set when the page was loaded fires, or the answer a suspended listener
    waits for is there.  Listeners take turns: one runs from an event to its
    next [await], or to its end, before the next event is looked at.  Every
    event may come at any time; a browser allows fewer sequences (it does
    not click a load button that is disabled while a load waits, and it
    loads the script once), so what holds of every sequence here holds of
    every sequence there. *)
Inductive event :=
| ScriptLoaded
| ThemeToggleClick
| ClearTokenClick
| UsernameTyped (s : string)
| TokenTyped (s : string)
| SearchTyped (s : string)
| LanguageChosen (s : string)
| LoadClick
| HashChanged (h : string)
| HashTimer
| ProjectLinkClick (i : nat)
| ModalCloseClick
| ModalAreaClick (target_has_data_close : bool)
| Arrived (k : nat) (a : arrival).

Definition step (ev : event) (st : page) : page :=
  match ev with
  | ScriptLoaded => script_start st
  | ThemeToggleClick => themeToggle_click st
  | ClearTokenClick => clearToken_click st
  | UsernameTyped s => set_usernameInput s st
  | TokenTyped s => set_tokenInput s st
  | SearchTyped s => applyFilters (set_searchInput s st)
  | LanguageChosen s => applyFilters (set_langFilter s st)
  | LoadClick => launch loadBtn_click_start st
  | HashChanged h => launch handleHash_call (set_hash h st)
  | HashTimer => launch handleHash_call st
  | ProjectLinkClick i =>
      match projectsGrid st !! i with
      | Some c => launch (openProject_call (card_data_repo c)) st
      | None => st
      end
  | ModalCloseClick => closeModal st
  | ModalAreaClick true => closeModal st
  | ModalAreaClick false => st
  | Arrived k a =>
      match pending st !! k with
      | Some (Some task) =>
          match resume task a with
          | Some m => go_on k m st
          | None => st
          end
      | _ => st
      end
  end.

(** The page after a sequence of events. *)
Definition steps (evs : list event) (st : page) : page :=
  fold_left (λ s ev, step ev s) evs st.

End Script.

(** ** A host to run the model on

    An implementation of [Host] for text in ASCII, used to evaluate the
    model on examples.  [decodeURIComponent] and [atob] follow their
    standards on strings of bytes; the markdown renderer and the sanitizer
    are those of a one-paragraph text without markup; the prototypes are
    those of ECMAScript 2017. *)
Module AsciiHost.

Definition lower_char (c : ascii) : ascii :=
  let n := nat_of_ascii c in
  if (65 <=? n)%nat && (n <=? 90)%nat then ascii_of_nat (n + 32) else c.

Fixpoint lower (s : string) : string :=
  match s with
  | EmptyString => EmptyString
  | String c s' => String (lower_char c) (lower s')
  end.

Definition is_space (c : ascii) : bool :=
  let n := nat_of_ascii c in
  (n =? 32)%nat || ((9 <=? n)%nat && (n <=? 13)%nat).

Fixpoint trim_start (s : string) : string :=
  match s with
  | String c s' => if is_space c then trim_start s' else s
  | EmptyString => EmptyString
  end.

Fixpoint trim_end (s : string) : string :=
  match s with
  | EmptyString => EmptyString
  | String c s' =>
      match trim_end s' with
      | EmptyString => if is_space c then EmptyString else String c EmptyString
      | t => String c t
      end
  end.

Definition hex_value (c : ascii) : option nat :=
  let n := nat_of_ascii c in
  if (48 <=? n)%nat && (n <=? 57)%nat then Some (n - 48)%nat
  else if (65 <=? n)%nat && (n <=? 70)%nat then Some (n - 55)%nat
  else if (97 <=? n)%nat && (n <=? 102)%nat then Some (n - 87)%nat
  else None.

(** Every "%" must be followed by two hexadecimal digits. *)
Fixpoint percent_decode (s : string) : option (list nat) :=
  match s with
  | EmptyString => Some []
  | String "%" (String a (String b rest)) =>
      hi ← hex_value a; lo ← hex_value b;
      bytes ← percent_decode rest;
      Some ((16 * hi + lo)%nat :: bytes)
  | String "%" _ => None
  | String c rest => bytes ← percent_decode rest; Some (nat_of_ascii c :: bytes)
  end.

(** Well-formed UTF-8: [need] continuation bytes are still due, the next
    one within [lo..hi]. *)
Fixpoint utf8_ok (need lo hi : nat) (bytes : list nat) : bool :=
  match bytes with
  | [] => (need =? 0)%nat
  | b :: rest =>
      match need with
      | S n => (lo <=? b)%nat && (b <=? hi)%nat && utf8_ok n 128 191 rest
      | O =>
          if (b <? 128)%nat then utf8_ok 0 128 191 rest
          else if (194 <=? b)%nat && (b <=? 223)%nat then utf8_ok 1 128 191 rest
          else if (b =? 224)%nat then utf8_ok 2 160 191 rest
          else if (b =? 237)%nat then utf8_ok 2 128 159 rest
          else if (225 <=? b)%nat && (b <=? 239)%nat then utf8_ok 2 128 191 rest
          else if (b =? 240)%nat then utf8_ok 3 144 191 rest
          else if (241 <=? b)%nat && (b <=? 243)%nat then utf8_ok 3 128 191 rest
          else if (b =? 244)%nat then utf8_ok 3 128 143 rest
          else false
      end
  end.

Definition string_of_bytes (bytes : list nat) : string :=
  foldr (λ b s, String (ascii_of_nat b) s) EmptyString bytes.

Definition decode_uri (s : string) : option string :=
  bytes ← percent_decode s;
  if utf8_ok 0 128 191 bytes then Some (string_of_bytes bytes) else None.

Definition base64_value (c : ascii) : option nat :=
  let n := nat_of_ascii c in
  if (65 <=? n)%nat && (n <=? 90)%nat then Some (n - 65)%nat
  else if (97 <=? n)%nat && (n <=? 122)%nat then Some (n - 71)%nat
  else if (48 <=? n)%nat && (n <=? 57)%nat then Some (n + 4)%nat
  else if (n =? 43)%nat then Some 62%nat
  else if (n =? 47)%nat then Some 63%nat
  else None.

(** Groups of four digits give three bytes; a last group of three or two
    digits gives two bytes or one; one digit alone is an error. *)
Fixpoint base64_bytes (digits : list nat) : option (list nat) :=
  match digits with
  | a :: b :: c :: d :: rest =>
      bytes ← base64_bytes rest;
      Some ((4 * a + b / 16) :: (16 * (b mod 16) + c / 4) :: (64 * (c mod 4) + d) :: bytes)%nat
  | [a; b; c] => Some [(4 * a + b / 16); (16 * (b mod 16) + c / 4)]%nat
  | [a; b] => Some [(4 * a + b / 16)%nat]
  | [_] => None
  | [] => Some []
  end.

Fixpoint drop_padding (s : string) : string :=
  match s with
  | String "=" EmptyString => EmptyString
  | String "=" (String "=" EmptyString) => EmptyString
  | String c s' => String c (drop_padding s')
  | EmptyString => EmptyString
  end.

Fixpoint chars (s : string) : list ascii :=
  match s with
  | EmptyString => []
  | String c s' => c :: chars s'
  end.

Definition decode_base64 (s : string) : option string :=
  let kept := List.filter (λ c, negb (is_space c)) (chars s) in
  let body := if (length kept mod 4 =? 0)%nat
              then chars (drop_padding (string_of_bytes (map nat_of_ascii kept)))
              else kept in
  digits ← mapM base64_value body;
  bytes ← base64_bytes digits;
  Some (string_of_bytes bytes).

(** The index a property name stands for: a decimal numeral without a
    leading zero. *)
Fixpoint digits_value (acc : nat) (s : string) : option nat :=
  match s with
  | EmptyString => Some acc
  | String c s' =>
      let n := nat_of_ascii c in
      if (48 <=? n)%nat && (n <=? 57)%nat
      then digits_value (10 * acc + (n - 48)) s'
      else None
  end.

Definition index_of_name (name : string) : option nat :=
  match name with
  | EmptyString => None
  | String "0" EmptyString => Some 0%nat
  | String "0" _ => None
  | _ => digits_value 0 name
  end.

(** The properties of the prototypes, as of ECMAScript 2017. *)
Definition String_prototype : list string :=
  ["constructor"; "charAt"; "charCodeAt"; "codePointAt"; "concat"; "endsWith";
   "includes"; "indexOf"; "lastIndexOf"; "localeCompare"; "match"; "normalize";
   "padEnd"; "padStart"; "repeat"; "replace"; "search"; "slice"; "split";
   "startsWith"; "substring"; "toLocaleLowerCase"; "toLocaleUpperCase";
   "toLowerCase"; "toString"; "toUpperCase"; "trim"; "trimLeft"; "trimRight";
   "valueOf"; "substr"; "anchor"; "big"; "blink"; "bold"; "fixed"; "fontcolor";
   "fontsize"; "italics"; "link"; "small"; "strike"; "sub"; "sup"].

Definition Number_prototype : list string :=
  ["constructor"; "toExponential"; "toFixed"; "toLocaleString"; "toPrecision";
   "toString"; "valueOf"].

Definition Boolean_prototype : list string :=
  ["constructor"; "toString"; "valueOf"].

Definition Array_prototype : list string :=
  ["constructor"; "concat"; "copyWithin"; "entries"; "every"; "fill"; "filter";
   "find"; "findIndex"; "forEach"; "includes"; "indexOf"; "join"; "keys";
   "lastIndexOf"; "map"; "pop"; "push"; "reduce"; "reduceRight"; "reverse";
   "shift"; "slice"; "some"; "sort"; "splice"; "toLocaleString"; "toString";
   "unshift"; "values"].

Definition inherited (own : list string) (name : string) : option value :=
  if bool_decide (name ∈ own) || bool_decide (name ∈ Object_prototype)
  then Some VNative else None.

Definition get_of_non_object (d : document) (name : string) : option value :=
  match d with
  | DStr s =>
      if String.eqb name "length" then Some (VNum (Z.of_nat (String.length s)))
      else match index_of_name name ≫= λ i, String.get i s with
           | Some c => Some (VStr (String c EmptyString))
           | None => inherited String_prototype name
           end
  | DNum _ => inherited Number_prototype name
  | DBool _ => inherited Boolean_prototype name
  | DArray elems =>
      if String.eqb name "length" then Some (VNum (Z.of_nat (length elems)))
      else match index_of_name name ≫= λ i, elems !! i with
           | Some v => Some v
           | None => inherited Array_prototype name
           end
  | DNull | DObject _ => None
  end.

#[export] Instance host : Host := {|
  toLowerCase := lower;
  trim s := trim_end (trim_start s);
  decodeURIComponent := decode_uri;
  atob := decode_base64;
  marked_parse s := "<p>" +:+ s +:+ "</p>" +:+ String (ascii_of_nat 10) EmptyString;
  DOMPurify_sanitize s := s;
  toLocaleDateString s := s;
  non_object_get := get_of_non_object;
|}.

End AsciiHost.

(** ** Sample data *)

(** A page on which the script has not run yet: nothing stored, nothing
    rendered, the modal and the empty-state hidden. *)
Definition fresh_page : page :=
  {| localStorage := ∅; sessionStorage := ∅; root_classes := ∅;
     usernameInput := ""; tokenInput := ""; searchInput := ""; langFilter := "";
     langFilter_options := [""]; projectsGrid := [];
     projectsEmpty := {["hidden"]}; projectModal := {["hidden"]};
     projectDetail := DetailEmpty; hash := ""; repos := []; curated := DObject ∅;
     alerts := []; requests := []; pending := [] |}.

Definition sample_repo (owner nm : string) (lang : option string) : repo :=
  {| name := nm; full_name := owner +:+ "/" +:+ nm; description := None;
     language := lang; stargazers_count := 0;
     html_url := "https://github.com/" +:+ owner +:+ "/" +:+ nm;
     homepage := None; updated_at := "2024-01-01T00:00:00Z"; _curated := None |}.

Definition sample_entry (nm : string) : value :=
  VEntry {| Curated.repo := Some nm; Curated.description := Some "Hand-written";
            Curated.short := None; Curated.tags := Some ["web"; "demo"] |}.

(** ** Notions the properties are stated with *)

(** A request asks for the API's default page size when its URL does not set
    [per_page]. *)
Definition default_page_size (rq : request) : bool :=
  negb (includes (url rq) "per_page=").

(** The object an array document stands for: keyed by each element's [repo]
    property, elements without one left out, a later element replacing an
    earlier one with the same key. *)
Definition keyed_by_repo (elems : list value) : gmap string value :=
  fold_left
    (λ obj p, match field Curated.repo p with
              | Some k => if truthy_string k then <[k := p]> obj else obj
              | None => obj
              end)
    elems ∅.

(** The entry the curated document holds under a key: a property of its
    own, when the document is an object. *)
Definition own_entry (d : document) (k : string) : option value :=
  match d with
  | DObject props => props !! k
  | _ => None
  end.

Definition is_null (v : value) : bool :=
  match v with VNull => true | _ => false end.

(** What [loadCurated] resolves to, by the answer to its request. *)
Definition loadCurated_result (ans : answer document) : document :=
  match ans with
  | Response true _ (Some (DArray elems)) =>
      if existsb is_null elems then DObject ∅ else DObject (keyed_by_repo elems)
  | Response true _ (Some json) => if truthy_doc json then json else DObject ∅
  | _ => DObject ∅
  end.

(** The curated tags of a repository: those of its curated entry, none
    when it has no entry or the entry has no tags. *)
Definition curated_tags (r : repo) : list string :=
  match _curated r with
  | Some (VEntry e) => default [] (Curated.tags e)
  | _ => []
  end.

(** The text of a repository that a search runs over: its name, its
    description, its language and its curated tags, those that are there and
    not empty, with single spaces between them, in lower case. *)
Definition searched_text {host : Host} (r : repo) : string :=
  toLowerCase
    (String.concat " "
       (List.filter truthy_string
          [name r; default "" (description r); default "" (language r);
           String.concat " " (curated_tags r)])).

(** The search and language conditions of the filter, as propositions. *)
Definition matches {host : Host} (q lang : string) (r : repo) : Prop :=
  (lang = "" ∨ language r = Some lang)
  ∧ (q = "" ∨ includes (searched_text r) q = true).

#[export] Instance matches_dec {host : Host} q lang r : Decision (matches q lang r).
Proof. unfold matches. apply _. Defined.

(** The full name of a project as it stands in the hash: without its tabs
    and line breaks, without the controls and spaces at its end, and
    percent-encoded. *)
Definition name_in_hash (full : string) : string :=
  fragment_encode (drop_tabs_newlines (drop_trailing full)).

(** No byte of the string is one the URL parser encodes in a fragment: the
    string has no control character, space, double quote, "<", ">" or
    backquote and nothing outside ASCII. *)
Fixpoint plain (s : string) : bool :=
  match s with
  | EmptyString => true
  | String c s' => negb (fragment_encoded c) && plain s'
  end.

(** What [openProject] takes for [topics] and [readme] from the answers to
    its two requests: a request that fails, a status that is not ok and a
    body that cannot be read all give the fallback. *)
Definition topics_of (ans : answer topics_json) : list string :=
  match ans with
  | Response true _ (Some json) => default [] (names json)
  | _ => []
  end.

Definition readme_of {host : Host} (ans : answer readme_json) : option string :=
  match ans with
  | Response true _ (Some json) =>
      if truthy_opt (content json)
      then atob (strip_newlines (default "" (content json)))
      else None
  | _ => None
  end.

(** A request failed: no answer came, the status of the answer is not ok,
    or its body cannot be read. *)
Definition failed {A} (ans : answer A) : Prop :=
  match ans with
  | NetworkFailure => True
  | Response ok _ body => ok = false ∨ body = None
  end.

(** The two requests of [openProject], as started on page [st]. *)
Definition detail_requests {host : Host} (fullName : string) (st : page) : list request :=
  let parts := split_on "/" fullName in
  [Request (fetchTopics_url (parts !! 0%nat) (parts !! 1%nat)) (buildHeaders true st) false;
   Request (fetchReadme_url (parts !! 0%nat) (parts !! 1%nat)) (buildHeaders false st) false].

(** The page [openProject] leaves when it first suspends: the hash names the
    project, the modal is displayed with the loading view, and both requests
    are started. *)
Definition opening {host : Host} (fullName : string) (st : page) : page :=
  set_requests (requests st ++ detail_requests fullName st)
    (set_projectDetail (DetailLoading (template (split_on "/" fullName !! 1%nat)))
       (set_projectModal (class_remove "hidden" (projectModal st))
          (set_hash (project_prefix +:+ name_in_hash fullName) st))).

(** [frame R m]: whatever [m] does, returning or throwing, the page it leaves
    is related by [R] to the page it started on. *)
Definition frame {A} (R : relation page) (m : M A) : Prop :=
  ∀ st, R st (m st).2.

(** Both storages and the two globals are as before. *)
Definition same_data : relation page := λ st st',
  localStorage st' = localStorage st
  ∧ sessionStorage st' = sessionStorage st
  ∧ repos st' = repos st
  ∧ curated st' = curated st.

(** The storages are as before, but for the theme preference and the
    token. *)
Definition same_storage : relation page := λ st st',
  (∀ k, k ≠ "theme" → localStorage st' !! k = localStorage st !! k)
  ∧ (∀ k, k ≠ "GHTOKEN" → sessionStorage st' !! k = sessionStorage st !! k).

(** *** Notions for the properties of the whole page *)

(** Strings in increasing order, as [sort] leaves them. *)
Definition increasing (l : list string) : Prop :=
  Sorted (λ a b, String.leb a b = true) l.

(** The character occurs in the string. *)
Fixpoint has_char (c : ascii) (s : string) : bool :=
  match s with
  | EmptyString => false
  | String d s' => Ascii.eqb d c || has_char c s'
  end.

(** Why a list fetch fails, if it does. *)
Definition load_error (ansF : answer (list repo)) : option js_error :=
  match ansF with
  | NetworkFailure => Some FetchFailed
  | Response false status _ => Some (GitHubApiError status)
  | Response true _ None => Some BodyNotJson
  | Response true _ (Some _) => None
  end.

(** Every card of the grid is the card of a repository of [repos], and the
    cards stand in the order of [repos]. *)
Definition grid_of_repos {host : Host} (st : page) : Prop :=
  ∃ shown, shown `sublist_of` repos st ∧ projectsGrid st = map card_of shown.

(** The modal and the hash agree: a displayed modal goes with a project
    hash. *)
Definition modal_consistent (st : page) : Prop :=
  visible (projectModal st) → ∃ rest, hash st = "#/project/" +:+ rest.

(** The hash, the modal and the detail are as before. *)
Definition same_modal : relation page := λ st st',
  hash st' = hash st
  ∧ projectModal st' = projectModal st
  ∧ projectDetail st' = projectDetail st.

(** The list, its filters and what the grid shows are as before. *)
Definition same_listing : relation page := λ st st',
  repos st' = repos st
  ∧ curated st' = curated st
  ∧ searchInput st' = searchInput st
  ∧ langFilter st' = langFilter st
  ∧ langFilter_options st' = langFilter_options st
  ∧ projectsGrid st' = projectsGrid st
  ∧ projectsEmpty st' = projectsEmpty st
  ∧ sessionStorage st' = sessionStorage st
  ∧ tokenInput st' = tokenInput st.

Definition api_root : string := "https://api.github.com/".

(** The request has an [Authorization] header. *)
Definition carries_authorization (rq : request) : bool :=
  existsb (λ h, String.eqb h.1 "Authorization") (headers rq).

(** A request that carries the token goes to the hosting API. *)
Definition token_goes_to_api (rq : request) : Prop :=
  carries_authorization rq = true → startsWith (url rq) api_root = true.

(** The log of requests has grown, by requests that keep the token with
    the hosting API. *)
Definition appends_api_requests : relation page := λ st st',
  ∃ new, requests st' = (requests st ++ new)%list ∧ Forall token_goes_to_api new.

(** The page the click listener of the load button has reached when it
    awaits the list of repositories: the token is stored, the curated
    document is in [curated], two requests are started. *)
Definition awaiting_repos {host : Host} (ansC : answer document) (st : page) : page :=
  let username := if truthy_string (trim (usernameInput st))
                  then trim (usernameInput st) else DEFAULT_USERNAME in
  let st0 := if truthy_string (trim (tokenInput st))
             then setSessionToken (trim (tokenInput st)) st else st in
  let st1 := set_curated (loadCurated_result ansC)
               (set_requests
                  (requests st0 ++ [Request "/projects/projects.json" [] true]) st0) in
  set_requests
    (requests st1 ++ [Request (fetchRepos_url username) (buildHeaders false st1) false])
    st1.

(** A page once summaries are merged with its [curated], the language
    options rebuilt and the grid rendered. *)
Definition relisted {host : Host} (summaries : list repo) (st : page) : page :=
  let st' := set_repos (map (merge_curated (curated st)) summaries) st in
  applyFilters (buildLangOptions (repos st') st').

(** The page once the fetched summaries are merged, the language options
    rebuilt and the grid rendered, before the listener looks at the hash. *)
Definition listed {host : Host} (ansC : answer document) (summaries : list repo)
    (st : page) : page :=
  let st2 := awaiting_repos ansC st in
  let st3 := set_repos (map (merge_curated (curated st2)) summaries) st2 in
  applyFilters (buildLangOptions (repos st3) st3).

(** A property of pages as a relation between a page and the pages the
    script turns it into: whoever starts with it ends with it. *)
Definition preserved (I : page → Prop) : relation page := λ st st', I st → I st'.


(** Two pages that differ in their suspended listeners at most. *)
Definition up_to_pending : relation page := λ st st',
  set_pending [] st = set_pending [] st'.




(** * Properties *)

(** ** The hash of a project *)

Lemma drop_trailing_cons c s :
  c0_or_space c = false → drop_trailing (String c s) = String c (drop_trailing s).
Proof. intros Hc. simpl. rewrite Hc. by destruct (drop_trailing s). Qed.

Lemma hash_of_project full :
  hash_after_replaceState (project_prefix +:+ full) = project_prefix +:+ name_in_hash full.
Proof.
  unfold hash_after_replaceState, name_in_hash.
  cbv beta iota delta [project_prefix String.append].
  change (drop_leading (String "#" ?s)) with (String "#" s).
  rewrite !drop_trailing_cons by reflexivity.
  reflexivity.
Qed.

Lemma plain_char c :
  fragment_encoded c = false → c0_or_space c = false ∧ tab_or_newline c = false.
Proof.
  unfold fragment_encoded, c0_or_space, tab_or_newline. cbv zeta.
  generalize (nat_of_ascii c). intros n Hn.
  repeat (apply orb_false_iff in Hn as [Hn ?]).
  apply Nat.leb_gt in Hn. split; [by apply Nat.leb_gt|].
  rewrite !orb_false_iff, !Nat.eqb_neq. lia.
Qed.

Lemma name_in_hash_plain s : plain s = true → name_in_hash s = s.
Proof.
  unfold name_in_hash. induction s as [|c s IH]; [done|].
  cbn [plain]. intros [Hc Hs]%andb_true_iff. apply negb_true_iff in Hc.
  destruct (plain_char c Hc) as [H0 Ht].
  rewrite drop_trailing_cons by done.
  cbn [drop_tabs_newlines]. rewrite Ht. cbn [fragment_encode]. rewrite Hc.
  by rewrite IH.
Qed.

Lemma percent_encode_plain c : plain (percent_encode c) = true.
Proof. by destruct c as [[] [] [] [] [] [] [] []]. Qed.

Lemma plain_app a b : plain a = true → plain b = true → plain (a +:+ b) = true.
Proof.
  intros Ha Hb. induction a as [|c a IH]; [done|].
  cbn [plain] in Ha. apply andb_true_iff in Ha as [Hc Ha].
  change (String c a +:+ b) with (String c (a +:+ b)). cbn [plain].
  by rewrite Hc, IH.
Qed.

Lemma fragment_encode_plain s : plain (fragment_encode s) = true.
Proof.
  induction s as [|c s IH]; [done|]. cbn [fragment_encode].
  destruct (fragment_encoded c) eqn:Hc.
  - apply plain_app; [apply percent_encode_plain|done].
  - cbn [plain]. by rewrite Hc.
Qed.

Section Properties.
Context {host : Host}.

(* The prefix stays folded while proofs simplify. *)
#[local] Opaque project_prefix.

(** ** Strings and truthiness *)

Lemma truthy_string_false s : truthy_string s = false ↔ s = "".
Proof. destruct s; simpl; split; congruence. Qed.

Lemma truthy_string_true s : truthy_string s = true ↔ s ≠ "".
Proof. destruct s; simpl; split; congruence. Qed.

Lemma append_cons c s t : String c s +:+ t = String c (s +:+ t).
Proof. reflexivity. Qed.

Lemma startsWith_app p s : startsWith (p +:+ s) p = true.
Proof.
  induction p as [|a p IH]; simpl; [done|].
  by rewrite Ascii.eqb_refl.
Qed.

Lemma slice_from_app p s : slice_from (String.length p) (p +:+ s) = s.
Proof. induction p as [|a p IH]; simpl; done. Qed.

Lemma startsWith_split s p :
  startsWith s p = true → s = p +:+ slice_from (String.length p) s.
Proof.
  revert s. induction p as [|a p IH]; intros s Hs; simpl in *; [done|].
  destruct s as [|b s]; [done|].
  destruct (Ascii.eqb a b) eqn:Hab; [|done].
  apply Ascii.eqb_eq in Hab as ->. rewrite append_cons. f_equal. by apply IH.
Qed.

(** A pattern the string starts with is its first occurrence. *)
Lemma replace_first_empty_prefix pat s :
  startsWith s pat = true →
  replace_first_empty pat s = slice_from (String.length pat) s.
Proof. intros Hs. destruct s; simpl; by rewrite Hs. Qed.

(** ** The grid *)

Lemma append_cards_map items grid :
  append_cards items grid = (grid ++ map card_of items)%list.
Proof.
  unfold append_cards. revert grid.
  induction items as [|r items IH]; intros grid; simpl.
  - by rewrite app_nil_r.
  - rewrite IH. by rewrite <- app_assoc.
Qed.

Lemma renderGrid_grid items st :
  projectsGrid (renderGrid items st) = map card_of items.
Proof.
  unfold renderGrid. destruct items as [|r items]; destruct st; simpl; [done|].
  by rewrite append_cards_map.
Qed.

Lemma renderGrid_empty_classes items st :
  projectsEmpty (renderGrid items st) =
    match items with
    | [] => class_remove "hidden" (projectsEmpty st)
    | _ :: _ => class_add "hidden" (projectsEmpty st)
    end.
Proof. unfold renderGrid. by destruct items, st. Qed.

(** C10.  After [renderGrid] the empty-state element is displayed if and
    only if the list is empty; the grid holds one card per entry of the list,
    in the order of the list; so the grid is empty exactly when the
    empty-state is displayed. *)
Theorem renderGrid_grid_and_empty_state (items : list repo) (st : page) :
  (visible (projectsEmpty (renderGrid items st)) ↔ items = [])
  ∧ projectsGrid (renderGrid items st) = map card_of items
  ∧ length (projectsGrid (renderGrid items st)) = length items
  ∧ (∀ i, projectsGrid (renderGrid items st) !! i = card_of <$> items !! i)
  ∧ (projectsGrid (renderGrid items st) = []
     ↔ visible (projectsEmpty (renderGrid items st))).
Proof.
  assert (Hvis : visible (projectsEmpty (renderGrid items st)) ↔ items = []).
  { rewrite renderGrid_empty_classes. unfold visible, class_remove, class_add.
    destruct items as [|r items]; split.
    - done.
    - intros _. set_solver.
    - intros Hin. exfalso. apply Hin. set_solver.
    - done. }
  rewrite renderGrid_grid. split_and!.
  - done.
  - done.
  - by rewrite length_map.
  - intros i. by rewrite list_lookup_fmap.
  - rewrite Hvis. destruct items; simpl; split; done.
Qed.

(** ** Filters *)

Lemma includes_unfold s q :
  includes s q =
    startsWith s q || match s with
                      | EmptyString => false
                      | String _ s' => includes s' q
                      end.
Proof. by destruct s. Qed.

(** [includes] finds the query exactly when the text holds it somewhere. *)
Lemma includes_occurs s q : includes s q = true ↔ ∃ a b, s = a +:+ q +:+ b.
Proof.
  split.
  - induction s as [|c s IH]; rewrite includes_unfold; intros H;
      apply orb_true_iff in H as [H|H]; try done.
    + apply startsWith_split in H. by exists "", (slice_from (String.length q) "").
    + apply startsWith_split in H. by exists "", (slice_from (String.length q) (String c s)).
    + destruct (IH H) as (a & b & ->). by exists (String c a), b.
  - intros (a & b & ->). induction a as [|c a IH]; rewrite includes_unfold.
    + change ("" +:+ q +:+ b) with (q +:+ b). by rewrite startsWith_app.
    + rewrite append_cons, IH. apply orb_true_r.
Qed.

Lemma join_concat sep parts : join sep parts = String.concat sep parts.
Proof.
  induction parts as [|p parts IH]; [done|].
  destruct parts as [|p' parts]; [done|].
  change (join sep (p :: p' :: parts)) with (p +:+ sep +:+ join sep (p' :: parts)).
  by rewrite IH.
Qed.

Lemma tags_joined_curated_tags r : tags_joined r = String.concat " " (curated_tags r).
Proof.
  unfold tags_joined, curated_field, curated_tags.
  destruct (_curated r) as [[| [|] |n|s| |e|]|]; simpl; try done.
  - by destruct (negb _).
  - by destruct (truthy_string s).
  - destruct (Curated.tags e) as [ts|]; simpl; [apply join_concat|done].
Qed.

(** The text the callback of the filter builds is the searched text. *)
Lemma hay_searched_text r : hay r = searched_text r.
Proof.
  unfold hay, searched_text. f_equal. rewrite join_concat. f_equal.
  rewrite tags_joined_curated_tags. unfold omit_falsy.
  destruct (name r) as [|? ?], (description r) as [[|? ?]|],
    (language r) as [[|? ?]|], (String.concat " " (curated_tags r)) as [|? ?];
    reflexivity.
Qed.

Lemma keeps_matches q lang r : keeps q lang r = true ↔ matches q lang r.
Proof.
  unfold keeps, matches. rewrite hay_searched_text.
  destruct (truthy_string lang) eqn:Hl; simpl.
  - apply truthy_string_true in Hl.
    case_bool_decide as Hlang; simpl.
    + destruct (truthy_string q) eqn:Hq; simpl.
      * apply truthy_string_true in Hq. naive_solver.
      * apply truthy_string_false in Hq. naive_solver.
    + naive_solver.
  - apply truthy_string_false in Hl.
    destruct (truthy_string q) eqn:Hq; simpl.
    + apply truthy_string_true in Hq. naive_solver.
    + apply truthy_string_false in Hq. naive_solver.
Qed.

Lemma filter_keeps q lang (rs : list repo) :
  List.filter (keeps q lang) rs = filter (matches q lang) rs.
Proof.
  induction rs as [|r rs IH]; [done|]. simpl.
  rewrite filter_cons, IH.
  destruct (keeps q lang r) eqn:Hk.
  - rewrite decide_True; [done|]. by apply keeps_matches.
  - rewrite decide_False; [done|]. rewrite <- keeps_matches. congruence.
Qed.

(** C1.  The repositories [applyFilters] hands to the grid are those of
    [repos], in their order, whose language is the selected one (any language
    when the selection is empty) and whose text contains the trimmed,
    lowercased query (any text when that is empty); the grid shows one card
    for each.  The text is the lowercased concatenation of the name, the
    description, the language and the curated tags of the repository, those
    of them that are there and not empty, with a single space between one
    and the next. *)
Theorem applyFilters_shows_the_matching_repositories (st : page) :
  let q := toLowerCase (trim (searchInput st)) in
  let lang := langFilter st in
  let text (r : repo) :=
    toLowerCase
      (String.concat " "
         (List.filter (λ part, negb (String.eqb part ""))
            [name r; default "" (description r); default "" (language r);
             String.concat " "
               match _curated r with
               | Some (VEntry e) => default [] (Curated.tags e)
               | _ => []
               end])) in
  filtered st = filter (matches q lang) (repos st)
  ∧ (∀ r, r ∈ filtered st ↔
          r ∈ repos st
          ∧ (lang = "" ∨ language r = Some lang)
          ∧ (q = "" ∨ ∃ before after, text r = before +:+ q +:+ after))
  ∧ filtered st `sublist_of` repos st
  ∧ projectsGrid (applyFilters st) = map card_of (filtered st).
Proof.
  intros q lang text.
  assert (Heq : filtered st = filter (matches q lang) (repos st)).
  { unfold filtered. apply filter_keeps. }
  assert (Htext : ∀ r, text r = searched_text r).
  { intros r. unfold text, searched_text, curated_tags. do 2 f_equal.
    apply filter_ext. by intros [|? ?]. }
  split_and!.
  - done.
  - intros r. rewrite Heq, list_elem_of_filter. unfold matches.
    rewrite includes_occurs, Htext. naive_solver.
  - rewrite Heq. apply sublist_filter.
  - unfold applyFilters. apply renderGrid_grid.
Qed.

(** ** What a function leaves alone *)

Lemma same_data_preorder : PreOrder same_data.
Proof.
  split.
  - by intros st.
  - intros st1 st2 st3 (?&?&?&?) (?&?&?&?). unfold same_data. split_and!; congruence.
Qed.
#[local] Existing Instance same_data_preorder.

Lemma same_storage_preorder : PreOrder same_storage.
Proof.
  split.
  - by intros st.
  - intros st1 st2 st3 [H1 H2] [H3 H4]. split; intros k Hk.
    + by rewrite H3, H1.
    + by rewrite H4, H2.
Qed.
#[local] Existing Instance same_storage_preorder.

Lemma same_data_storage st st' : same_data st st' → same_storage st st'.
Proof. intros (Hl&Hs&_). split; intros k _; by rewrite ?Hl, ?Hs. Qed.

Section Frame.
Context {R : relation page} `{!PreOrder R}.

Lemma frame_ret {A} (a : A) : frame R (mret a).
Proof. intros st. simpl. reflexivity. Qed.

Lemma frame_throw {A} e : frame R (throw (A := A) e).
Proof. intros st. simpl. reflexivity. Qed.

Lemma frame_gets {A} (f : page → A) : frame R (gets f).
Proof. intros st. simpl. reflexivity. Qed.

Lemma frame_modify f : (∀ st, R st (f st)) → frame R (modify f).
Proof. intros Hf st. apply Hf. Qed.

Lemma frame_bind {A B} (m : M A) (k : A → M B) :
  frame R m → (∀ a, frame R (k a)) → frame R (m ≫= k).
Proof.
  intros Hm Hk st. unfold mbind, M_bind.
  specialize (Hm st). destruct (m st) as [[a|e] st'] eqn:Hst; simpl in *.
  - etrans; [exact Hm|]. apply Hk.
  - done.
Qed.

Lemma frame_try_catch {A} (m : M A) h :
  frame R m → (∀ e, frame R (h e)) → frame R (try_catch m h).
Proof.
  intros Hm Hh st. unfold try_catch.
  specialize (Hm st). destruct (m st) as [[a|e] st'] eqn:Hst; simpl in *.
  - done.
  - etrans; [exact Hm|]. apply Hh.
Qed.

End Frame.

Lemma frame_weaken {A} (R R' : relation page) (m : M A) :
  (∀ st st', R st st' → R' st st') → frame R m → frame R' m.
Proof. intros HR Hm st. apply HR, Hm. Qed.

Lemma same_data_renderGrid items st : same_data st (renderGrid items st).
Proof. unfold renderGrid. by destruct items. Qed.

Lemma same_data_applyFilters st : same_data st (applyFilters st).
Proof. apply same_data_renderGrid. Qed.

Lemma same_data_buildLangOptions items st : same_data st (buildLangOptions items st).
Proof. done. Qed.

Lemma same_data_closeModal st : same_data st (closeModal st).
Proof. unfold closeModal. by destruct (startsWith _ project_prefix). Qed.

Lemma closeModal_eq st :
  closeModal st =
    let closed := set_projectDetail DetailEmpty
                    (set_projectModal (class_add "hidden" (projectModal st)) st) in
    if startsWith (hash st) project_prefix then set_hash "" closed else closed.
Proof. reflexivity. Qed.

(** ** The modal *)

Lemma fetchTopics_resume_run ans st :
  try_catch (fetchTopics_resume ans) (λ _, mret []) st = (Returned (topics_of ans), st).
Proof.
  unfold try_catch, fetchTopics_resume, mbind, M_bind.
  destruct ans as [|ok status body]; simpl; [done|].
  destruct ok; simpl; [|done]. by destruct body.
Qed.

Lemma fetchReadme_resume_run ans st :
  try_catch (fetchReadme_resume ans) (λ _, mret None) st = (Returned (readme_of ans), st).
Proof.
  unfold try_catch, fetchReadme_resume, mbind, M_bind.
  destruct ans as [|ok status body]; simpl; [done|].
  destruct ok; simpl; [|done]. destruct body as [json|]; simpl; [|done].
  destruct (truthy_opt (content json)); simpl; [|done].
  by destruct (atob _).
Qed.

(** The page [openProject] leaves once both answers are in. *)
Lemma openProject_resume_run r ansT ansR st :
  openProject_resume r ansT ansR st =
    (Returned tt,
     set_projectDetail
       match r with
       | Some r => DetailShown (detail_view_of r (topics_of ansT)
                                               (readme_html (readme_of ansR)))
       | None => DetailError (TypeErrorReading "name")
       end st).
Proof.
  unfold openProject_resume, try_catch at 1, mbind, M_bind.
  rewrite fetchTopics_resume_run, fetchReadme_resume_run.
  by destruct r.
Qed.

(** The page [openProject] leaves when it first suspends. *)
Lemma openProject_start_run fullName st :
  openProject_start fullName st = (Returned (find_repo fullName st), opening fullName st).
Proof.
  unfold openProject_start, fetchTopics_start, fetchReadme_start, fetch_start,
    mbind, M_bind, modify, gets, detail_requests.
  rewrite hash_of_project. unfold opening.
  simpl. unfold set_requests at 1. simpl. rewrite <- app_assoc. done.
Qed.

Lemma openProject_run fullName ansT ansR st :
  run (openProject fullName ansT ansR) st =
    set_projectDetail
      match find_repo fullName st with
      | Some r => DetailShown (detail_view_of r (topics_of ansT)
                                              (readme_html (readme_of ansR)))
      | None => DetailError (TypeErrorReading "name")
      end
      (set_requests (requests st ++ detail_requests fullName st)
         (set_projectModal (class_remove "hidden" (projectModal st))
            (set_hash (project_prefix +:+ name_in_hash fullName) st))).
Proof.
  unfold run, openProject, mbind, M_bind.
  rewrite openProject_start_run, openProject_resume_run. done.
Qed.

Lemma openProject_call_run fullName st :
  openProject_call fullName st
  = (Returned (Some (OpenAwaitsDetails (find_repo fullName st))), opening fullName st).
Proof. unfold openProject_call, mbind, M_bind. by rewrite openProject_start_run. Qed.

Lemma same_data_openProject fullName ansT ansR :
  frame same_data (openProject fullName ansT ansR).
Proof. intros st. fold (run (openProject fullName ansT ansR) st). by rewrite openProject_run. Qed.

Lemma same_data_handleHash ansT ansR : frame same_data (handleHash ansT ansR).
Proof.
  unfold handleHash. apply frame_bind; [apply frame_gets|intros h].
  destruct (startsWith h project_prefix).
  - destruct (decodeURIComponent _); [apply same_data_openProject|apply frame_throw].
  - apply frame_modify. apply same_data_closeModal.
Qed.

(** ** Fetching *)

Lemma loadCurated_loop_run elems obj st :
  loadCurated_loop elems obj st =
    if existsb is_null elems
    then (Thrown (TypeErrorReading "repo"), st)
    else (Returned
            (fold_left
               (λ obj p, match field Curated.repo p with
                         | Some k => if truthy_string k then <[k := p]> obj else obj
                         | None => obj
                         end)
               elems obj), st).
Proof.
  revert obj. induction elems as [|p elems IH]; intros obj; [done|].
  destruct p as [| | | | |e|]; try (simpl; apply IH); [done|].
  simpl. unfold mbind, M_bind, mret, M_ret. simpl.
  destruct (Curated.repo e) as [k|]; [|apply IH].
  destruct (truthy_string k); apply IH.
Qed.

Lemma loadCurated_run username ans st :
  loadCurated username ans st =
    (Returned (loadCurated_result ans),
     set_requests (requests st ++ [Request "/projects/projects.json" [] true]) st).
Proof.
  unfold loadCurated, try_catch, mbind, M_bind, fetch_start, modify. simpl.
  destruct ans as [|ok status body]; simpl; [done|].
  destruct ok; simpl; [|done].
  destruct body as [json|]; simpl; [|done].
  destruct json as [| | | |elems|props]; simpl; try done.
  unfold mbind, M_bind. rewrite loadCurated_loop_run. unfold keyed_by_repo.
  by destruct (existsb is_null elems).
Qed.


Lemma fetchRepos_run username ans st :
  fetchRepos username ans st =
    (match ans with
     | NetworkFailure => Thrown FetchFailed
     | Response false status _ => Thrown (GitHubApiError status)
     | Response true _ None => Thrown BodyNotJson
     | Response true _ (Some data) => Returned data
     end,
     set_requests
       (requests st ++ [Request (fetchRepos_url username) (buildHeaders false st) false])
       st).
Proof.
  unfold fetchRepos, mbind, M_bind, fetch_start, modify, gets. simpl.
  destruct ans as [|ok status body]; simpl; [done|].
  destruct ok; simpl; [|done]. by destruct body.
Qed.

(** C8, as the script has it.  [fetchRepos] starts exactly one request, for
    one page of up to 100 repositories sorted by update time
    ([per_page=100&sort=updated]), and asks for no further page.  On an ok
    answer whose body parses it returns exactly that body; otherwise it
    throws. *)
Theorem fetchRepos_one_request (username : string) (ans : answer (list repo))
    (st : page) :
  requests (fetchRepos username ans st).2 =
    (requests st ++
       [Request ("https://api.github.com/users/" +:+ username
                 +:+ "/repos?per_page=100&sort=updated")
                (buildHeaders false st) false])%list
  ∧ (fetchRepos username ans st).1 =
      match ans with
      | NetworkFailure => Thrown FetchFailed
      | Response false status _ => Thrown (GitHubApiError status)
      | Response true _ None => Thrown BodyNotJson
      | Response true _ (Some data) => Returned data
      end
  ∧ same_data st (fetchRepos username ans st).2.
Proof.
  rewrite fetchRepos_run. simpl. split_and!; done.
Qed.

(** ** Loading and merging *)

Lemma merge_curated_other_fields cur r :
  name (merge_curated cur r) = name r
  ∧ full_name (merge_curated cur r) = full_name r
  ∧ language (merge_curated cur r) = language r
  ∧ stargazers_count (merge_curated cur r) = stargazers_count r
  ∧ html_url (merge_curated cur r) = html_url r
  ∧ homepage (merge_curated cur r) = homepage r
  ∧ updated_at (merge_curated cur r) = updated_at r.
Proof.
  unfold merge_curated.
  destruct (truthy_doc cur && truthy_value_opt _); [|done].
  by destruct (truthy_opt _).
Qed.

Lemma merge_curated_full_names cur fetched :
  map full_name (map (merge_curated cur) fetched) = map full_name fetched.
Proof.
  rewrite map_map. apply map_ext. intros r.
  apply merge_curated_other_fields.
Qed.

Lemma merge_curated_object props r :
  merge_curated (DObject props) r =
    match props !! name r with
    | Some entry =>
        if truthy entry then
          if truthy_opt (field Curated.description entry)
          then with_description (field Curated.description entry)
                 (with_curated (Some entry) r)
          else with_curated (Some entry) r
        else r
    | None =>
        if bool_decide (name r ∈ Object_prototype)
        then with_curated (Some VNative) r else r
    end.
Proof.
  unfold merge_curated, doc_get. cbn [truthy_doc andb].
  destruct (props !! name r) as [entry|]; cbn [truthy_value_opt curated_description].
  - by destruct (truthy entry).
  - by case_bool_decide.
Qed.

(** C3, where the script departs from it.  [curated[name]] also finds what
    every object inherits.  Take a repository named after such a property
    ("constructor", "toString", "__proto__", ...) and a curated document, an
    object, that holds no entry under that name: the merged summary carries
    the inherited value as [_curated] all the same, and is not the fetched
    summary. *)
Theorem merge_curated_takes_what_objects_inherit (props : gmap string value)
    (r : repo) :
  name r ∈ Object_prototype →
  own_entry (DObject props) (name r) = None →
  _curated r = None →
  _curated (merge_curated (DObject props) r) = Some VNative
  ∧ merge_curated (DObject props) r ≠ r.
Proof.
  intros Hin Hown Hr. rewrite merge_curated_object. simpl in Hown. rewrite Hown.
  rewrite bool_decide_eq_true_2 by done. split; [done|].
  intros Heq. apply (f_equal _curated) in Heq. simpl in Heq. congruence.
Qed.

(** X19 (what holds of C3).  The curated document is an object, and the
    repository is not named after a property every object inherits, or the
    document holds an entry under its name.  The merged summary has the
    name, full name, language, star count, URLs and update time of the
    fetched one.  When the document holds a truthy entry under the name, the
    merged summary carries it as [_curated], and its description is the
    curated description when the entry has a non-empty one and the fetched
    description otherwise.  When the document holds no entry under the
    name, or a falsy one, the merged summary is the fetched one. *)
Theorem merge_curated_overrides (props : gmap string value) (r : repo) :
  name r ∉ Object_prototype ∨ is_Some (props !! name r) →
  let m := merge_curated (DObject props) r in
  name m = name r ∧ full_name m = full_name r ∧ language m = language r
  ∧ stargazers_count m = stargazers_count r ∧ html_url m = html_url r
  ∧ homepage m = homepage r ∧ updated_at m = updated_at r
  ∧ match props !! name r with
    | Some entry =>
        if truthy entry then
          _curated m = Some entry
          ∧ description m =
              match field Curated.description entry with
              | Some d => if truthy_string d then Some d else description r
              | None => description r
              end
        else m = r
    | None => m = r
    end.
Proof.
  intros Hname m.
  pose proof (merge_curated_other_fields (DObject props) r) as (?&?&?&?&?&?&?).
  split_and!; try done.
  subst m. rewrite merge_curated_object.
  destruct (props !! name r) as [entry|] eqn:Hget.
  - destruct (truthy entry) eqn:Hentry; [|done].
    destruct (field Curated.description entry) as [d|]; simpl; [|done].
    by destruct (truthy_string d).
  - destruct Hname as [Hname|[? ?]]; [|done].
    by rewrite bool_decide_eq_false_2.
Qed.

Lemma loadBtn_click_merges ansC status fetched ansT ansR st :
  let st' := run (loadBtn_click ansC (Response true status (Some fetched)) ansT ansR) st in
  curated st' = loadCurated_result ansC
  ∧ repos st' = map (merge_curated (loadCurated_result ansC)) fetched.
Proof.
  unfold run, loadBtn_click, mbind, M_bind, gets, try_catch. simpl.
  destruct (truthy_string (trim (tokenInput st))); simpl;
    rewrite loadCurated_run; simpl;
    (match goal with
     | |- context [handleHash ansT ansR ?s] =>
         pose proof (same_data_handleHash ansT ansR s) as Hh;
         assert (Hs : curated s = loadCurated_result ansC
                      ∧ repos s = map (merge_curated (loadCurated_result ansC)) fetched);
         [|destruct (handleHash ansT ansR s) as [[u|e] st5]]
     end);
    try (simpl in *; destruct Hh as (_&_&Hr&Hc); try destruct st5; simpl in *;
         rewrite Hr, Hc; exact Hs);
    (match goal with
     | |- context [applyFilters ?s] =>
         destruct (same_data_applyFilters s) as (_&_&->&->);
         match s with
         | buildLangOptions ?items ?s0 =>
             destruct (same_data_buildLangOptions items s0) as (_&_&->&->)
         end
     end);
    by destruct st.
Qed.

(** C6, as the script has it.  A successful load leaves in [repos] one
    merged summary per fetched summary, in order and with the same full
    name: the full names of the merged collection are pairwise distinct
    exactly when those of the fetched list are.  The script removes no
    duplicate. *)
Theorem load_keeps_full_names (ansC : answer document) (status : Z)
    (summaries : list repo) (ansT : answer topics_json) (ansR : answer readme_json)
    (st : page) :
  let st' := run (loadBtn_click ansC (Response true status (Some summaries)) ansT ansR) st in
  map full_name (repos st') = map full_name summaries
  ∧ (NoDup (map full_name (repos st')) ↔ NoDup (map full_name summaries)).
Proof.
  intros st'.
  assert (Hn : map full_name (repos st') = map full_name summaries).
  { subst st'. destruct (loadBtn_click_merges ansC status summaries ansT ansR st) as [_ ->].
    apply merge_curated_full_names. }
  by rewrite Hn.
Qed.

(** ** The hash and the modal *)

Lemma handleHash_run ansT ansR st :
  handleHash ansT ansR st =
    if startsWith (hash st) project_prefix then
      match decodeURIComponent
              (slice_from (String.length project_prefix) (hash st)) with
      | Some full => openProject full ansT ansR st
      | None => (Thrown URIError, st)
      end
    else (Returned tt, closeModal st).
Proof.
  unfold handleHash, mbind, M_bind, gets, modify, throw. simpl.
  destruct (startsWith (hash st) project_prefix) eqn:Hp; [|done].
  rewrite replace_first_empty_prefix by done.
  by destruct (decodeURIComponent _).
Qed.

(** C5, as the script has it.  When the hash is "#/project/" followed by a
    rest that [decodeURIComponent] accepts, [handleHash] opens the project
    named by the decoded rest; when the hash does not start with
    "#/project/", it closes the modal, which hides it and empties the detail.
    Opening a project displays the modal and sets the hash to "#/project/"
    followed by the full name as the URL parser writes it: without its tabs
    and line breaks, without the controls and spaces at its end, and
    percent-encoded, so that no byte of the hash is one the parser encodes;
    that is the full name itself when it has no such byte.  Closing the
    modal clears a hash that starts with "#/project/" and keeps any
    other. *)
Theorem hash_deep_linking (ansT : answer topics_json) (ansR : answer readme_json)
    (st : page) :
  (∀ rest full : string,
     hash st = "#/project/" +:+ rest →
     decodeURIComponent rest = Some full →
     handleHash ansT ansR st = openProject full ansT ansR st)
  ∧ ((∀ rest : string, hash st ≠ "#/project/" +:+ rest) →
     handleHash ansT ansR st = (Returned tt, closeModal st))
  ∧ (∀ full : string,
       hash (run (openProject full ansT ansR) st)
       = "#/project/" +:+ fragment_encode (drop_tabs_newlines (drop_trailing full))
       ∧ plain (hash (run (openProject full ansT ansR) st)) = true
       ∧ (plain full = true →
          hash (run (openProject full ansT ansR) st) = "#/project/" +:+ full)
       ∧ visible (projectModal (run (openProject full ansT ansR) st)))
  ∧ (∀ rest : string, hash st = "#/project/" +:+ rest → hash (closeModal st) = "")
  ∧ ((∀ rest : string, hash st ≠ "#/project/" +:+ rest) →
     hash (closeModal st) = hash st)
  ∧ ¬ visible (projectModal (closeModal st))
  ∧ projectDetail (closeModal st) = DetailEmpty.
Proof.
  change "#/project/" with project_prefix.
  assert (Hno : (∀ rest : string, hash st ≠ project_prefix +:+ rest) →
                startsWith (hash st) project_prefix = false).
  { intros Hrest. destruct (startsWith (hash st) project_prefix) eqn:Hp; [|done].
    apply startsWith_split in Hp. by destruct (Hrest _ Hp). }
  split_and!.
  - intros rest full Hh Hd. rewrite handleHash_run, Hh, startsWith_app, slice_from_app.
    by rewrite Hd.
  - intros Hrest. by rewrite handleHash_run, Hno.
  - intros full. rewrite openProject_run.
    cbn [hash set_projectDetail set_requests set_projectModal set_hash projectModal].
    split_and!.
    + done.
    + apply plain_app; [by vm_compute|apply fragment_encode_plain].
    + intros Hplain. by rewrite name_in_hash_plain.
    + unfold visible, class_remove. set_solver.
  - intros rest Hh. unfold closeModal. simpl. by rewrite Hh, startsWith_app.
  - intros Hrest. unfold closeModal. simpl. by rewrite Hno.
  - unfold closeModal. simpl.
    destruct (startsWith (hash st) project_prefix); simpl;
      unfold visible, class_add; intros Hv; apply Hv; set_solver.
  - unfold closeModal. simpl. by destruct (startsWith (hash st) project_prefix).
Qed.

(** A project that is not in [repos]: the detail shows the error. *)
Lemma openProject_unlisted fullName ansT ansR st :
  find_repo fullName st = None →
  projectDetail (run (openProject fullName ansT ansR) st)
  = DetailError (TypeErrorReading "name").
Proof. intros Hr. rewrite openProject_run. simpl. by rewrite Hr. Qed.

Lemma openProject_requests fullName ansT ansR st :
  requests (run (openProject fullName ansT ansR) st)
  = (requests st ++ detail_requests fullName st)%list.
Proof. by rewrite openProject_run. Qed.

(** C2, where the script departs from it.  The page is opened on a link to
    a project while [repos] is still empty, and the README is fetched and
    decoded: whatever the topics request answers and whatever the README
    holds, the detail ends as the error message, not as the rendered
    README. *)
Theorem openProject_unlisted_drops_the_readme (ansT : answer topics_json)
    (status : Z) (base64 : string) :
  projectDetail
    (run (openProject "octocat/Hello-World" ansT
            (Response true status (Some (ReadmeJson (Some base64)))))
         fresh_page)
  = DetailError (TypeErrorReading "name").
Proof. by apply openProject_unlisted. Qed.

(** C7, where the script departs from it.  On the same page, with the
    topics request failing: both requests are started, and the modal fails
    all the same, whatever the README request answers. *)
Theorem openProject_unlisted_fails_the_modal (ansR : answer readme_json) :
  let st' := run (openProject "octocat/Hello-World" NetworkFailure ansR) fresh_page in
  requests st' = detail_requests "octocat/Hello-World" fresh_page
  ∧ projectDetail st' = DetailError (TypeErrorReading "name").
Proof.
  split.
  - by rewrite openProject_requests.
  - by apply openProject_unlisted.
Qed.

(** X1 (what holds of C2).  The README of a project that is in [repos]:
    the detail view holds the sanitized rendering of the decoded README when
    [fetchReadme] gave a non-empty text, and the placeholder otherwise. *)
Theorem openProject_listed_renders_the_readme (fullName : string) (r : repo)
    (ansT : answer topics_json) (ansR : answer readme_json) (st : page) :
  find_repo fullName st = Some r →
  ∃ view,
    projectDetail (run (openProject fullName ansT ansR) st) = DetailShown view
    ∧ view_readme_html view =
        match readme_of ansR with
        | Some text => if truthy_string text
                       then DOMPurify_sanitize (marked_parse text)
                       else no_readme_html
        | None => no_readme_html
        end.
Proof.
  intros Hr. rewrite openProject_run. simpl. rewrite Hr.
  eexists. split; [done|]. simpl. unfold readme_html.
  destruct (readme_of ansR) as [text|]; simpl; [|done].
  by destruct (truthy_string text).
Qed.

Lemma curated_field_tags r : default [] (curated_field Curated.tags r) = curated_tags r.
Proof.
  unfold curated_field, curated_tags.
  destruct (_curated r) as [[| [|] |n|s| |e|]|]; simpl; try done.
  - by destruct (negb _).
  - by destruct (truthy_string s).
Qed.

Lemma topics_of_failed ans : failed ans → topics_of ans = [].
Proof. destruct ans as [|[|] status [json|]]; simpl; naive_solver. Qed.

Lemma readme_of_failed ans : failed ans → readme_of ans = None.
Proof. destruct ans as [|[|] status [json|]]; simpl; naive_solver. Qed.

(** X2 (what holds of C7).  The two requests of a modal open, and their
    failures.  Every open, of any name on any page, starts exactly two
    requests before it first suspends, for the topics and for the README of
    the repository the name gives, and none after that, whatever the
    answers are.  For a project that is in [repos] the detail view is
    rendered whatever the two requests answer: when the topics request
    fails the view holds the curated tags and no topic, and when the README
    request fails it holds the placeholder. *)
Theorem openProject_two_parallel_requests (fullName : string)
    (ansT : answer topics_json) (ansR : answer readme_json) (st : page) :
  let owner := template (split_on "/" fullName !! 0%nat) in
  let repo := template (split_on "/" fullName !! 1%nat) in
  requests (openProject_start fullName st).2
    = (requests st ++
         [Request ("https://api.github.com/repos/" +:+ owner +:+ "/" +:+ repo +:+ "/topics")
                  (buildHeaders true st) false;
          Request ("https://api.github.com/repos/" +:+ owner +:+ "/" +:+ repo +:+ "/readme")
                  (buildHeaders false st) false])%list
  ∧ (∀ r st', requests (openProject_resume r ansT ansR st').2 = requests st')
  ∧ requests (run (openProject fullName ansT ansR) st)
    = requests (openProject_start fullName st).2
  ∧ ∀ r, find_repo fullName st = Some r →
      ∃ view,
        projectDetail (run (openProject fullName ansT ansR) st) = DetailShown view
        ∧ view_title view = name r
        ∧ (failed ansT → view_chips view = curated_tags r)
        ∧ (failed ansR → view_readme_html view = no_readme_html).
Proof.
  intros owner repo. split_and!.
  - by rewrite openProject_start_run.
  - intros r st'. by rewrite openProject_resume_run.
  - by rewrite openProject_run, openProject_start_run.
  - intros r Hr. rewrite openProject_run. simpl. rewrite Hr.
    eexists. split_and!; [done|done|..]; simpl.
    + intros HT. rewrite (topics_of_failed _ HT), app_nil_r. apply curated_field_tags.
    + intros HR. by rewrite (readme_of_failed _ HR).
Qed.

(** ** Listeners in parts *)

Lemma handleHash_call_run st :
  handleHash_call st =
    if startsWith (hash st) project_prefix then
      match decodeURIComponent
              (slice_from (String.length project_prefix) (hash st)) with
      | Some full => openProject_call full st
      | None => (Thrown URIError, st)
      end
    else (Returned None, closeModal st).
Proof.
  unfold handleHash_call, mbind, M_bind, gets, modify, throw. simpl.
  destruct (startsWith (hash st) project_prefix) eqn:Hp; [|done].
  rewrite replace_first_empty_prefix by done.
  by destruct (decodeURIComponent _).
Qed.

Lemma loadCurated_resume_run ans st :
  loadCurated_resume ans st = (Returned (loadCurated_result ans), st).
Proof.
  unfold loadCurated_resume, try_catch, mbind, M_bind.
  destruct ans as [|ok status body]; simpl; [done|].
  destruct ok; simpl; [|done].
  destruct body as [json|]; simpl; [|done].
  destruct json as [| | | |elems|props]; simpl; try done.
  unfold mbind, M_bind. rewrite loadCurated_loop_run. unfold keyed_by_repo.
  by destruct (existsb is_null elems).
Qed.

Lemma fetchRepos_resume_run ans st :
  fetchRepos_resume ans st =
    (match ans with
     | Response true _ (Some data) => Returned data
     | _ => Thrown (default FetchFailed (load_error ans))
     end, st).
Proof.
  unfold fetchRepos_resume, mbind, M_bind.
  destruct ans as [|[|] status [data|]]; reflexivity.
Qed.

(** The page the load listener leaves at its first [await]. *)
Lemma loadBtn_click_start_run st :
  loadBtn_click_start st =
    (Returned
       (Some (LoadAwaitsCurated
                (if truthy_string (trim (usernameInput st))
                 then trim (usernameInput st) else DEFAULT_USERNAME))),
     let st0 := if truthy_string (trim (tokenInput st))
                then setSessionToken (trim (tokenInput st)) st else st in
     set_requests (requests st0 ++ [Request "/projects/projects.json" [] true]) st0).
Proof.
  unfold loadBtn_click_start, loadCurated_start, fetch_start, try_catch, mbind, M_bind,
    gets, modify.
  simpl. by destruct (truthy_string (trim (tokenInput st))).
Qed.

(** The page it leaves at its second. *)
Lemma loadBtn_click_curated_run username ansC st :
  loadBtn_click_curated username ansC st =
    (Returned (Some LoadAwaitsRepos),
     set_requests
       (requests st ++ [Request (fetchRepos_url username) (buildHeaders false st) false])
       (set_curated (loadCurated_result ansC) st)).
Proof.
  unfold loadBtn_click_curated, try_catch at 1, mbind, M_bind.
  rewrite loadCurated_resume_run. reflexivity.
Qed.

(** The page it leaves at its end, by the answer to the list fetch. *)
Lemma loadBtn_click_repos_run ansF st :
  loadBtn_click_repos ansF st =
    match ansF with
    | Response true _ (Some summaries) =>
        match handleHash_call (relisted summaries st) with
        | (Returned next, st') => (Returned next, st')
        | (Thrown e, st') =>
            (Returned None, set_alerts (alerts st' ++ [ErrorLoadingRepos e]) st')
        end
    | _ =>
        (Returned None,
         set_alerts
           (alerts st ++ [ErrorLoadingRepos (default FetchFailed (load_error ansF))]) st)
    end.
Proof.
  unfold loadBtn_click_repos, try_catch, mbind, M_bind.
  rewrite fetchRepos_resume_run.
  destruct ansF as [|[|] status [summaries|]]; reflexivity.
Qed.






(** ** What every event keeps

    [R] relates a page to the pages the script may turn it into; it does
    not look at the suspended listeners.  When every listener and every
    part of a listener takes a page to a related one, so does every event
    and every sequence of events. *)

Lemma preserved_preorder I : PreOrder (preserved I).
Proof. split; unfold preserved; [by intros st|intros st1 st2 st3; tauto]. Qed.
#[local] Existing Instance preserved_preorder.

Section Events.
Context (R : relation page) `{!PreOrder R}.
Hypothesis R_pending : ∀ p st, R st (set_pending p st).
Hypothesis R_script_start : ∀ st, R st (script_start st).
Hypothesis R_themeToggle_click : ∀ st, R st (themeToggle_click st).
Hypothesis R_clearToken_click : ∀ st, R st (clearToken_click st).
Hypothesis R_usernameInput : ∀ s st, R st (set_usernameInput s st).
Hypothesis R_tokenInput : ∀ s st, R st (set_tokenInput s st).
Hypothesis R_searchInput : ∀ s st, R st (applyFilters (set_searchInput s st)).
Hypothesis R_langFilter : ∀ s st, R st (applyFilters (set_langFilter s st)).
Hypothesis R_loadBtn_click_start : ∀ st, R st (loadBtn_click_start st).2.
Hypothesis R_hashchange : ∀ h st, R st (handleHash_call (set_hash h st)).2.
Hypothesis R_handleHash : ∀ st, R st (handleHash_call st).2.
Hypothesis R_project_link :
  ∀ i c st, projectsGrid st !! i = Some c →
            R st (openProject_call (card_data_repo c) st).2.
Hypothesis R_closeModal : ∀ st, R st (closeModal st).
Hypothesis R_loadBtn_click_curated : ∀ u a st, R st (loadBtn_click_curated u a st).2.
Hypothesis R_loadBtn_click_repos : ∀ a st, R st (loadBtn_click_repos a st).2.
Hypothesis R_openProject_resume : ∀ r aT aR st, R st (openProject_resume r aT aR st).2.

Lemma launch_keeps m st0 st : R st0 (m st).2 → R st0 (launch m st).
Proof.
  unfold launch. destruct (m st) as [[[task|]|e] st']; simpl; try done.
  intros Hm. etrans; [exact Hm|apply R_pending].
Qed.

Lemma go_on_keeps k m st0 st : R st0 (m st).2 → R st0 (go_on k m st).
Proof.
  unfold go_on. destruct (m st) as [[next|e] st']; simpl;
    intros Hm; (etrans; [exact Hm|apply R_pending]).
Qed.

Lemma step_keeps ev st : R st (step ev st).
Proof.
  destruct ev as [| | |s|s|s|s| |h| |i| |[|]|k a]; cbv beta iota delta [step]; try done.
  - by apply launch_keeps.
  - apply launch_keeps. apply R_hashchange.
  - by apply launch_keeps.
  - destruct (projectsGrid st !! i) as [c|] eqn:Hc; [|done].
    apply launch_keeps. by eapply R_project_link.
  - destruct (pending st !! k) as [[task|]|]; try done.
    destruct task as [u| |r], a as [ans|ans|aT aR]; cbn [resume]; try done;
      apply go_on_keeps; try done.
    unfold mbind, M_bind. specialize (R_openProject_resume r aT aR st).
    by destruct (openProject_resume r aT aR st) as [[[]|e] st'].
Qed.

Lemma steps_keeps evs st : R st (steps evs st).
Proof.
  unfold steps. revert st. induction evs as [|ev evs IH]; intros st; simpl.
  - done.
  - etrans; [apply (step_keeps ev)|apply IH].
Qed.

End Events.

(** ** Storage *)

Lemma same_storage_applyTheme theme st : same_storage st (applyTheme theme st).
Proof.
  unfold applyTheme. split; intros k Hk.
  - destruct (String.eqb theme "dark"); simpl; by rewrite lookup_insert_ne.
  - by destruct (String.eqb theme "dark").
Qed.

Lemma same_storage_setSessionToken t st : same_storage st (setSessionToken t st).
Proof.
  unfold setSessionToken. split; intros k Hk.
  - by destruct (truthy_string t).
  - destruct (truthy_string t); simpl.
    + by rewrite lookup_insert_ne.
    + by rewrite lookup_delete_ne.
Qed.

Lemma same_data_openProject_call fullName st :
  same_data st (openProject_call fullName st).2.
Proof. by rewrite openProject_call_run. Qed.

Lemma same_data_handleHash_call st : same_data st (handleHash_call st).2.
Proof.
  rewrite handleHash_call_run. destruct (startsWith (hash st) project_prefix).
  - destruct (decodeURIComponent _); [apply same_data_openProject_call|done].
  - apply same_data_closeModal.
Qed.

Lemma same_storage_relisted summaries st : same_storage st (relisted summaries st).
Proof.
  unfold relisted. cbv zeta.
  etrans; [|apply same_data_storage, same_data_applyFilters]. by split.
Qed.

Lemma same_storage_events evs st : same_storage st (steps evs st).
Proof.
  apply steps_keeps; try apply _; clear evs st.
  - done.
  - intros st. unfold script_start. etrans; [|apply same_storage_applyTheme]. done.
  - intros st. apply same_storage_applyTheme.
  - intros st. unfold clearToken_click.
    etrans; [apply (same_storage_setSessionToken "" st)|]. done.
  - done.
  - done.
  - intros s st. apply same_data_storage. etrans; [|apply same_data_applyFilters]. done.
  - intros s st. apply same_data_storage. etrans; [|apply same_data_applyFilters]. done.
  - intros st. rewrite loadBtn_click_start_run. cbn [snd].
    destruct (truthy_string (trim (tokenInput st))); [|done].
    etrans; [apply same_storage_setSessionToken|]. done.
  - intros h st. apply same_data_storage.
    etrans; [|apply same_data_handleHash_call]. done.
  - intros st. apply same_data_storage, same_data_handleHash_call.
  - intros i c st _. apply same_data_storage, same_data_openProject_call.
  - intros st. apply same_data_storage, same_data_closeModal.
  - intros u a st. by rewrite loadBtn_click_curated_run.
  - intros a st. rewrite loadBtn_click_repos_run.
    destruct a as [|[|] status [summaries|]]; try done.
    pose proof (same_data_handleHash_call (relisted summaries st)) as Hh.
    apply same_data_storage in Hh.
    destruct (handleHash_call (relisted summaries st)) as [[next|e] st']; cbn [snd] in *.
    + etrans; [apply same_storage_relisted|done].
    + etrans; [apply same_storage_relisted|]. etrans; [exact Hh|done].
  - intros r aT aR st. by rewrite openProject_resume_run.
Qed.

(** C4, as the script has it.  Whatever happens to the page, and in
    whatever order the listeners take their turns, every entry of the
    persistent storage other than the theme preference ("theme") keeps its
    value, and every entry of the session storage other than the bearer
    token ("GHTOKEN") keeps its value.  The theme preference is written by
    [applyTheme], also when the script is loaded. *)
Theorem storage_footprint (evs : list event) (st : page) (k : string) :
  (k ≠ "theme" → localStorage (steps evs st) !! k = localStorage st !! k)
  ∧ (k ≠ "GHTOKEN" → sessionStorage (steps evs st) !! k = sessionStorage st !! k).
Proof.
  destruct (same_storage_events evs st) as [Hl Hs].
  split; intros Hk; [by apply Hl|by apply Hs].
Qed.

End Properties.

(** * Further properties

    Properties of the functions around those above: the token and the theme,
    the language options, rendering, the whole click listener of the load
    button, and what holds of the page whatever happens to it. *)

Section Further.
Context {host : Host}.

#[local] Opaque project_prefix.
#[local] Existing Instance preserved_preorder.

(** ** The session token and the theme *)

(** X3.  The token that is set is the token that is read, the empty token
    included; clearing removes the entry and empties the input; loading the
    script again puts the stored token back into the input. *)
Theorem session_token_round_trip (t : string) (st : page) :
  sessionToken (setSessionToken t st) = t
  ∧ sessionStorage (clearToken_click st) !! "GHTOKEN" = None
  ∧ sessionToken (clearToken_click st) = ""
  ∧ tokenInput (clearToken_click st) = ""
  ∧ tokenInput (script_start (setSessionToken t st)) = t.
Proof.
  assert (Hget : sessionToken (setSessionToken t st) = t).
  { unfold sessionToken, setSessionToken, getItem_or.
    destruct t as [|c t]; simpl.
    - by rewrite lookup_delete_eq.
    - by rewrite lookup_insert_eq. }
  split_and!.
  - done.
  - unfold clearToken_click, setSessionToken. simpl. by rewrite lookup_delete_eq.
  - unfold clearToken_click, sessionToken, setSessionToken, getItem_or. simpl.
    by rewrite lookup_delete_eq.
  - done.
  - rewrite <- Hget at 2. unfold script_start, applyTheme, sessionToken. simpl.
    by destruct (String.eqb _ "dark").
Qed.






(** ** The language options *)

Lemma sort_insert_perm s l : sort_insert s l ≡ₚ s :: l.
Proof.
  induction l as [|t l IH]; simpl; [done|].
  destruct (String.leb s t); [done|].
  rewrite IH. apply Permutation_swap.
Qed.

Lemma sort_strings_perm l : sort_strings l ≡ₚ l.
Proof.
  unfold sort_strings. induction l as [|s l IH]; simpl; [done|].
  by rewrite sort_insert_perm, IH.
Qed.

Lemma sort_insert_increasing s l : increasing l → increasing (sort_insert s l).
Proof.
  unfold increasing. induction 1 as [|t l Hl IH Hhd]; simpl.
  - repeat constructor.
  - destruct (String.leb s t) eqn:Hst.
    + repeat constructor; done.
    + constructor; [done|].
      assert (Hts : String.leb t s = true).
      { destruct (String.leb_total s t); congruence. }
      destruct Hhd as [|u l' Htu]; simpl.
      * by constructor.
      * destruct (String.leb s u); by constructor.
Qed.

Lemma sort_strings_increasing l : increasing (sort_strings l).
Proof.
  unfold sort_strings. induction l as [|s l IH]; simpl.
  - constructor.
  - by apply sort_insert_increasing.
Qed.

Lemma elem_of_omit_falsy x (l : list (option string)) :
  x ∈ omit_falsy l ↔ x ≠ "" ∧ Some x ∈ l.
Proof.
  unfold omit_falsy. rewrite list_elem_of_omap. split.
  - intros (o & Ho & Hx). destruct o as [y|]; simpl in Hx; [|done].
    destruct (truthy_string y) eqn:Hy; [|done].
    inversion Hx; subst. split; [|done]. by apply truthy_string_true.
  - intros [Hne Hin]. exists (Some x). split; [done|]. simpl.
    apply truthy_string_true in Hne. by rewrite Hne.
Qed.

Lemma buildLangOptions_offers_each_language_once_aux items st :
  ∃ langs,
    langFilter_options (buildLangOptions items st) = "" :: langs
    ∧ langFilter (buildLangOptions items st) = ""
    ∧ increasing langs
    ∧ NoDup langs
    ∧ ∀ l, l ∈ langs ↔ l ≠ "" ∧ ∃ r, r ∈ items ∧ language r = Some l.
Proof.
  eexists. split_and!; [done|done|..].
  - apply sort_strings_increasing.
  - rewrite sort_strings_perm. apply NoDup_remove_dups.
  - intros l. rewrite sort_strings_perm, elem_of_remove_dups, elem_of_omit_falsy.
    rewrite list_elem_of_fmap. naive_solver.
Qed.

(** X5.  After [buildLangOptions] the filter offers "All languages" (the
    value "") first and selects it, followed by the languages of the list:
    each non-empty language of some repository exactly once, in increasing
    order. *)
Theorem buildLangOptions_offers_each_language_once (items : list repo) (st : page) :
  ∃ langs,
    langFilter_options (buildLangOptions items st) = "" :: langs
    ∧ langFilter (buildLangOptions items st) = ""
    ∧ increasing langs
    ∧ NoDup langs
    ∧ ∀ l, l ∈ langs ↔ l ≠ "" ∧ ∃ r, r ∈ items ∧ language r = Some l.
Proof. apply buildLangOptions_offers_each_language_once_aux. Qed.

(** ** Rendering *)

(** Two pages with the same parts are the same page. *)
Lemma page_ext (st st' : page) :
  localStorage st = localStorage st' → sessionStorage st = sessionStorage st' →
  root_classes st = root_classes st' → usernameInput st = usernameInput st' →
  tokenInput st = tokenInput st' → searchInput st = searchInput st' →
  langFilter st = langFilter st' → langFilter_options st = langFilter_options st' →
  projectsGrid st = projectsGrid st' → projectsEmpty st = projectsEmpty st' →
  projectModal st = projectModal st' → projectDetail st = projectDetail st' →
  hash st = hash st' → repos st = repos st' → curated st = curated st' →
  alerts st = alerts st' → requests st = requests st' →
  pending st = pending st' →
  st = st'.
Proof. destruct st, st'; simpl; intros; by subst. Qed.

Lemma renderGrid_twice a b st : renderGrid a (renderGrid b st) = renderGrid a st.
Proof.
  apply page_ext; try (by destruct a, b).
  rewrite !renderGrid_empty_classes. unfold class_add, class_remove.
  destruct a, b; apply set_eq; intros x; set_unfold;
    destruct (decide (x = "hidden")); naive_solver.
Qed.

(** X6.  Rendering replaces what was rendered before: the page after
    [renderGrid] does not depend on the list rendered last, so no card of an
    earlier list stays in the grid; applying the filters twice is applying
    them once. *)
Theorem renderGrid_replaces_the_rendering (items items' : list repo) (st : page) :
  renderGrid items (renderGrid items' st) = renderGrid items st
  ∧ applyFilters (applyFilters st) = applyFilters st.
Proof.
  split; [apply renderGrid_twice|].
  unfold applyFilters.
  assert (Hf : filtered (renderGrid (filtered st) st) = filtered st).
  { unfold filtered at 1 3. by destruct (same_data_renderGrid (filtered st) st) as (_&_&->&_),
      (filtered st). }
  rewrite Hf. apply renderGrid_twice.
Qed.

(** ** The click listener of the load button, as a whole *)

Lemma same_listing_preorder : PreOrder same_listing.
Proof.
  split.
  - intros st. unfold same_listing. by split_and!.
  - intros st1 st2 st3 (?&?&?&?&?&?&?&?&?) (?&?&?&?&?&?&?&?&?).
    unfold same_listing. split_and!; congruence.
Qed.
#[local] Existing Instance same_listing_preorder.

Lemma same_listing_openProject fullName ansT ansR :
  frame same_listing (openProject fullName ansT ansR).
Proof.
  intros st. fold (run (openProject fullName ansT ansR) st).
  rewrite openProject_run. unfold same_listing. by split_and!.
Qed.

Lemma same_listing_closeModal st : same_listing st (closeModal st).
Proof.
  unfold closeModal, same_listing.
  destruct (startsWith _ project_prefix); by split_and!.
Qed.

Lemma same_listing_handleHash ansT ansR : frame same_listing (handleHash ansT ansR).
Proof.
  intros st. rewrite handleHash_run.
  destruct (startsWith (hash st) project_prefix).
  - destruct (decodeURIComponent _); [apply same_listing_openProject|reflexivity].
  - apply same_listing_closeModal.
Qed.

(** The page the listener leaves, by the answer to the list fetch. *)
Lemma loadBtn_click_run ansC ansF ansT ansR st :
  run (loadBtn_click ansC ansF ansT ansR) st =
    match ansF with
    | Response true _ (Some summaries) =>
        match handleHash ansT ansR (listed ansC summaries st) with
        | (Returned _, st') => st'
        | (Thrown e, st') => set_alerts (alerts st' ++ [ErrorLoadingRepos e]) st'
        end
    | _ =>
        set_alerts
          (alerts (awaiting_repos ansC st)
           ++ [ErrorLoadingRepos (default FetchFailed (load_error ansF))])
          (awaiting_repos ansC st)
    end.
Proof.
  unfold run, loadBtn_click, listed, awaiting_repos, mbind, M_bind, gets, try_catch,
    modify.
  simpl.
  destruct (truthy_string (trim (tokenInput st))); simpl;
    rewrite loadCurated_run; simpl; rewrite fetchRepos_run; simpl;
    (destruct ansF as [|[|] status [summaries|]]; simpl; try done);
    by destruct (handleHash _ _ _) as [[u|e] st'].
Qed.


(** *** The same, event by event

    The listeners do not look at the suspended listeners: a part run on a
    page with other listeners waiting leaves the page it leaves without
    them, with those listeners still waiting. *)











Lemma up_to_pending_set p st : up_to_pending (set_pending p st) st.
Proof. reflexivity. Qed.










Lemma renderGrid_keeps items st :
  same_data st (renderGrid items st)
  ∧ same_modal st (renderGrid items st)
  ∧ searchInput (renderGrid items st) = searchInput st
  ∧ langFilter (renderGrid items st) = langFilter st
  ∧ langFilter_options (renderGrid items st) = langFilter_options st
  ∧ tokenInput (renderGrid items st) = tokenInput st
  ∧ requests (renderGrid items st) = requests st
  ∧ alerts (renderGrid items st) = alerts st.
Proof. unfold renderGrid, same_data, same_modal. destruct items; by split_and!. Qed.

Lemma filtered_renderGrid items st : filtered (renderGrid items st) = filtered st.
Proof.
  destruct (renderGrid_keeps items st) as ((_&_&Hr&_)&_&Hs&Hl&_).
  unfold filtered. by rewrite Hr, Hs, Hl.
Qed.

Lemma awaiting_repos_keeps ansC st :
  same_modal st (awaiting_repos ansC st)
  ∧ curated (awaiting_repos ansC st) = loadCurated_result ansC
  ∧ repos (awaiting_repos ansC st) = repos st
  ∧ projectsGrid (awaiting_repos ansC st) = projectsGrid st
  ∧ searchInput (awaiting_repos ansC st) = searchInput st
  ∧ alerts (awaiting_repos ansC st) = alerts st
  ∧ localStorage (awaiting_repos ansC st) = localStorage st.
Proof.
  unfold awaiting_repos, setSessionToken, same_modal.
  destruct (truthy_string (trim (tokenInput st))); by split_and!.
Qed.

Lemma listed_facts ansC summaries st :
  repos (listed ansC summaries st) = map (merge_curated (loadCurated_result ansC)) summaries
  ∧ langFilter (listed ansC summaries st) = ""
  ∧ searchInput (listed ansC summaries st) = searchInput st
  ∧ projectsGrid (listed ansC summaries st)
    = map card_of (filtered (listed ansC summaries st))
  ∧ same_modal st (listed ansC summaries st).
Proof.
  destruct (awaiting_repos_keeps ansC st) as (Hm & Hc & _ & _ & Hs & _).
  unfold listed, applyFilters.
  set (st3 := set_repos _ (awaiting_repos ansC st)).
  set (S := buildLangOptions (repos st3) st3).
  destruct (renderGrid_keeps (filtered S) S) as ((_&_&Hr&_)&Hm'&Hs'&Hl'&_).
  split_and!.
  - rewrite Hr, <- Hc. reflexivity.
  - by rewrite Hl'.
  - rewrite Hs'. exact Hs.
  - by rewrite renderGrid_grid, filtered_renderGrid.
  - destruct Hm as (?&?&?), Hm' as (?&?&?). unfold same_modal.
    split_and!; etrans; try eassumption; done.
Qed.

(** X7.  After a load whose list fetch succeeds, the language filter is
    back on "All languages" and the grid shows, in order, one card for each
    merged repository whose text contains the trimmed, lowercased content of
    the search box; what the search box holds is kept. *)
Theorem load_shows_the_repositories_that_match_the_search
    (ansC : answer document) (status : Z) (summaries : list repo)
    (ansT : answer topics_json) (ansR : answer readme_json) (st : page) :
  let st' := run (loadBtn_click ansC (Response true status (Some summaries)) ansT ansR) st in
  langFilter st' = ""
  ∧ searchInput st' = searchInput st
  ∧ repos st' = map (merge_curated (loadCurated_result ansC)) summaries
  ∧ projectsGrid st'
    = map card_of
        (filter (matches (toLowerCase (trim (searchInput st))) "") (repos st')).
Proof.
  intros st'. subst st'. rewrite loadBtn_click_run.
  destruct (listed_facts ansC summaries st) as (Hrepos & Hlang & Hsearch & Hgrid & _).
  pose proof (same_listing_handleHash ansT ansR (listed ansC summaries st)) as Hh.
  assert (Hgoal : ∀ st', same_listing (listed ansC summaries st) st' →
            langFilter st' = ""
            ∧ searchInput st' = searchInput st
            ∧ repos st' = map (merge_curated (loadCurated_result ansC)) summaries
            ∧ projectsGrid st'
              = map card_of
                  (filter (matches (toLowerCase (trim (searchInput st))) "") (repos st'))).
  { intros st' (Hr & _ & Hs & Hl & _ & Hg & _).
    split_and!; [congruence|congruence|congruence|].
    rewrite Hg, Hgrid, Hr. unfold filtered.
    by rewrite filter_keeps, Hlang, Hsearch. }
  destruct (handleHash ansT ansR (listed ansC summaries st)) as [[u|e] st'];
    simpl in Hh; [by apply Hgoal|].
  destruct (Hgoal st' Hh) as (?&?&?&?). by split_and!.
Qed.

(** X8.  After a load whose list fetch fails (no answer, a status that is
    not ok, a body that is not JSON), [repos], the grid, the hash and the
    modal are as before, one alert names the error, and [curated] holds
    what [loadCurated] returned all the same. *)
Theorem load_failure_keeps_the_list (ansC : answer document)
    (ansF : answer (list repo)) (ansT : answer topics_json)
    (ansR : answer readme_json) (e : js_error) (st : page) :
  load_error ansF = Some e →
  let st' := run (loadBtn_click ansC ansF ansT ansR) st in
  repos st' = repos st
  ∧ projectsGrid st' = projectsGrid st
  ∧ hash st' = hash st
  ∧ projectModal st' = projectModal st
  ∧ projectDetail st' = projectDetail st
  ∧ alerts st' = (alerts st ++ [ErrorLoadingRepos e])%list
  ∧ curated st' = loadCurated_result ansC.
Proof.
  intros He st'. subst st'. rewrite loadBtn_click_run.
  destruct (awaiting_repos_keeps ansC st) as ((Hh&Hm&Hd) & Hc & Hr & Hg & _ & Ha & _).
  destruct ansF as [|[|] status [summaries|]]; simpl in He; try done;
    inversion He; subst;
    (split_and!; [exact Hr|exact Hg|exact Hh|exact Hm|exact Hd| |exact Hc]);
    cbn [alerts set_alerts default load_error]; by rewrite Ha.
Qed.

(** ** Where the token goes *)

Lemma appends_api_requests_preorder : PreOrder appends_api_requests.
Proof.
  split.
  - intros st. exists []. by rewrite app_nil_r.
  - intros st1 st2 st3 (n1 & H1 & F1) (n2 & H2 & F2).
    exists (n1 ++ n2)%list. split.
    + by rewrite H2, H1, app_assoc.
    + by apply Forall_app.
Qed.
#[local] Existing Instance appends_api_requests_preorder.

Lemma appends_nothing st st' : requests st' = requests st → appends_api_requests st st'.
Proof. intros Hr. exists []. by rewrite app_nil_r. Qed.

Lemma detail_requests_to_api fullName st :
  Forall token_goes_to_api (detail_requests fullName st).
Proof.
  unfold detail_requests.
  constructor; [intros _; reflexivity|].
  constructor; [intros _; reflexivity|constructor].
Qed.

Lemma appends_openProject fullName ansT ansR st :
  appends_api_requests st (run (openProject fullName ansT ansR) st).
Proof.
  exists (detail_requests fullName st). split.
  - apply openProject_requests.
  - apply detail_requests_to_api.
Qed.

Lemma appends_closeModal st : appends_api_requests st (closeModal st).
Proof.
  apply appends_nothing. unfold closeModal. by destruct (startsWith _ project_prefix).
Qed.

Lemma appends_handleHash ansT ansR st :
  appends_api_requests st (run (handleHash ansT ansR) st).
Proof.
  unfold run. rewrite handleHash_run.
  destruct (startsWith (hash st) project_prefix).
  - destruct (decodeURIComponent _) as [full|]; [apply appends_openProject|reflexivity].
  - apply appends_closeModal.
Qed.

Lemma awaiting_repos_requests ansC st :
  requests (awaiting_repos ansC st)
  = (requests st ++
       [Request "/projects/projects.json" [] true;
        Request
          (fetchRepos_url (if truthy_string (trim (usernameInput st))
                           then trim (usernameInput st) else DEFAULT_USERNAME))
          (buildHeaders false (awaiting_repos ansC st)) false])%list.
Proof.
  unfold awaiting_repos, setSessionToken.
  destruct (truthy_string (trim (tokenInput st)));
    cbn [requests set_requests set_curated set_sessionStorage];
    by rewrite <- app_assoc.
Qed.

Lemma appends_awaiting_repos ansC st :
  appends_api_requests st (awaiting_repos ansC st).
Proof.
  eexists. split; [apply awaiting_repos_requests|].
  constructor; [intros Hc; by vm_compute in Hc|].
  constructor; [intros _; reflexivity|constructor].
Qed.

Lemma listed_requests ansC summaries st :
  requests (listed ansC summaries st) = requests (awaiting_repos ansC st).
Proof.
  unfold listed, applyFilters.
  by destruct (renderGrid_keeps
                 (filtered (buildLangOptions
                    (repos (set_repos (map (merge_curated (curated (awaiting_repos ansC st)))
                                         summaries) (awaiting_repos ansC st)))
                    (set_repos (map (merge_curated (curated (awaiting_repos ansC st)))
                                  summaries) (awaiting_repos ansC st))))
                 (buildLangOptions
                    (repos (set_repos (map (merge_curated (curated (awaiting_repos ansC st)))
                                         summaries) (awaiting_repos ansC st)))
                    (set_repos (map (merge_curated (curated (awaiting_repos ansC st)))
                                  summaries) (awaiting_repos ansC st))))
    as (_&_&_&_&_&_&->&_).
Qed.

Lemma appends_loadBtn_click ansC ansF ansT ansR st :
  appends_api_requests st (run (loadBtn_click ansC ansF ansT ansR) st).
Proof.
  rewrite loadBtn_click_run.
  assert (Hfail : ∀ x, appends_api_requests st
                         (set_alerts x (awaiting_repos ansC st))).
  { intros x. etrans; [apply (appends_awaiting_repos ansC)|]. by apply appends_nothing. }
  destruct ansF as [|[|] status [summaries|]]; try apply Hfail.
  pose proof (appends_handleHash ansT ansR (listed ansC summaries st)) as Hh.
  unfold run in Hh.
  assert (Hl : appends_api_requests st (listed ansC summaries st)).
  { etrans; [apply (appends_awaiting_repos ansC)|].
    apply appends_nothing, listed_requests. }
  destruct (handleHash ansT ansR (listed ansC summaries st)) as [[u|e] st'];
    simpl in Hh.
  - by etrans.
  - etrans; [exact Hl|]. etrans; [exact Hh|]. by apply appends_nothing.
Qed.

Lemma appends_openProject_call fullName st :
  appends_api_requests st (openProject_call fullName st).2.
Proof.
  rewrite openProject_call_run. exists (detail_requests fullName st).
  split; [done|apply detail_requests_to_api].
Qed.

Lemma appends_handleHash_call st : appends_api_requests st (handleHash_call st).2.
Proof.
  rewrite handleHash_call_run. destruct (startsWith (hash st) project_prefix).
  - destruct (decodeURIComponent _); [apply appends_openProject_call|reflexivity].
  - apply appends_closeModal.
Qed.

Lemma relisted_requests summaries st : requests (relisted summaries st) = requests st.
Proof.
  unfold relisted, applyFilters. cbv zeta.
  match goal with
  | |- requests (renderGrid ?a ?b) = _ =>
      by destruct (renderGrid_keeps a b) as (_&_&_&_&_&_&->&_)
  end.
Qed.

Lemma appends_events evs st : appends_api_requests st (steps evs st).
Proof.
  apply steps_keeps; try apply _; clear evs st.
  - intros p st. by apply appends_nothing.
  - intros st. apply appends_nothing. unfold script_start, applyTheme.
    by destruct (String.eqb _ "dark").
  - intros st. apply appends_nothing. unfold themeToggle_click, applyTheme.
    by destruct (String.eqb _ "dark").
  - intros st. by apply appends_nothing.
  - intros s st. by apply appends_nothing.
  - intros s st. by apply appends_nothing.
  - intros s st. apply appends_nothing. unfold applyFilters.
    by destruct (renderGrid_keeps (filtered (set_searchInput s st)) (set_searchInput s st))
      as (_&_&_&_&_&_&->&_).
  - intros s st. apply appends_nothing. unfold applyFilters.
    by destruct (renderGrid_keeps (filtered (set_langFilter s st)) (set_langFilter s st))
      as (_&_&_&_&_&_&->&_).
  - intros st. rewrite loadBtn_click_start_run. cbn [snd].
    exists [Request "/projects/projects.json" [] true]. split.
    + unfold setSessionToken.
      by destruct (truthy_string (trim (tokenInput st))), (truthy_string (trim (tokenInput st))).
    + constructor; [intros Hc; by vm_compute in Hc|constructor].
  - intros h st. etrans; [|apply appends_handleHash_call]. by apply appends_nothing.
  - intros st. apply appends_handleHash_call.
  - intros i c st _. apply appends_openProject_call.
  - intros st. apply appends_closeModal.
  - intros u a st. rewrite loadBtn_click_curated_run. eexists. split; [reflexivity|].
    constructor; [intros _; reflexivity|constructor].
  - intros a st. rewrite loadBtn_click_repos_run.
    destruct a as [|[|] status [summaries|]]; try by apply appends_nothing.
    pose proof (appends_handleHash_call (relisted summaries st)) as Hh.
    assert (Hl : appends_api_requests st (relisted summaries st))
      by apply appends_nothing, relisted_requests.
    destruct (handleHash_call (relisted summaries st)) as [[next|e] st']; cbn [snd] in *.
    + by etrans.
    + etrans; [exact Hl|]. etrans; [exact Hh|]. by apply appends_nothing.
  - intros r aT aR st. rewrite openProject_resume_run. by apply appends_nothing.
Qed.

(** X13.  Whatever happens to the page, and in whatever order the listeners
    take their turns, the log of requests only grows, and every request that
    is added with an [Authorization] header goes to the hosting API: the
    token is never sent along with the request for the curated document, nor
    anywhere else. *)
Theorem token_only_goes_to_the_api (evs : list event) (st : page) :
  ∃ new,
    requests (steps evs st) = (requests st ++ new)%list
    ∧ Forall (λ rq, carries_authorization rq = true →
                    startsWith (url rq) api_root = true) new.
Proof. apply appends_events. Qed.



(** ** What holds of the page whatever happens *)

Lemma same_listing_grid st st' :
  same_listing st st' → grid_of_repos st → grid_of_repos st'.
Proof.
  intros (Hr&_&_&_&_&Hg&_) (shown & Hsub & Hgrid).
  exists shown. by rewrite Hr, Hg.
Qed.

Lemma grid_of_repos_applyFilters st : grid_of_repos (applyFilters st).
Proof.
  exists (filtered st). split.
  - destruct (same_data_applyFilters st) as (_&_&->&_).
    unfold filtered. rewrite filter_keeps. apply sublist_filter.
  - unfold applyFilters. apply renderGrid_grid.
Qed.

Lemma grid_of_repos_unchanged st st' :
  repos st' = repos st → projectsGrid st' = projectsGrid st →
  grid_of_repos st → grid_of_repos st'.
Proof. intros Hr Hg (shown & Hsub & Hgrid). exists shown. by rewrite Hr, Hg. Qed.

Lemma same_listing_openProject_call fullName st :
  same_listing st (openProject_call fullName st).2.
Proof. rewrite openProject_call_run. unfold same_listing. by split_and!. Qed.

Lemma same_listing_handleHash_call st : same_listing st (handleHash_call st).2.
Proof.
  rewrite handleHash_call_run. destruct (startsWith (hash st) project_prefix).
  - destruct (decodeURIComponent _); [apply same_listing_openProject_call|reflexivity].
  - apply same_listing_closeModal.
Qed.

Lemma grid_of_repos_relisted summaries st : grid_of_repos (relisted summaries st).
Proof. apply grid_of_repos_applyFilters. Qed.

Lemma grid_of_repos_steps evs st : grid_of_repos st → grid_of_repos (steps evs st).
Proof.
  change (preserved grid_of_repos st (steps evs st)).
  apply (steps_keeps (preserved grid_of_repos)); clear evs st; unfold preserved.
  - intros p st. by apply grid_of_repos_unchanged.
  - intros st. apply grid_of_repos_unchanged;
      unfold script_start, applyTheme; by destruct (String.eqb _ "dark").
  - intros st. apply grid_of_repos_unchanged;
      unfold themeToggle_click, applyTheme; by destruct (String.eqb _ "dark").
  - intros st. by apply grid_of_repos_unchanged.
  - intros s st. by apply grid_of_repos_unchanged.
  - intros s st. by apply grid_of_repos_unchanged.
  - intros s st _. apply grid_of_repos_applyFilters.
  - intros s st _. apply grid_of_repos_applyFilters.
  - intros st. rewrite loadBtn_click_start_run. cbn [snd].
    apply grid_of_repos_unchanged; unfold setSessionToken;
      by destruct (truthy_string (trim (tokenInput st))), (truthy_string (trim (tokenInput st))).
  - intros h st Hinv. eapply same_listing_grid; [apply same_listing_handleHash_call|].
    by eapply grid_of_repos_unchanged; [| |exact Hinv].
  - intros st. apply same_listing_grid, same_listing_handleHash_call.
  - intros i c st _. apply same_listing_grid, same_listing_openProject_call.
  - intros st. apply same_listing_grid, same_listing_closeModal.
  - intros u a st. rewrite loadBtn_click_curated_run. by apply grid_of_repos_unchanged.
  - intros a st Hinv. rewrite loadBtn_click_repos_run.
    destruct a as [|[|] status [summaries|]];
      try (by eapply grid_of_repos_unchanged; [| |exact Hinv]).
    pose proof (same_listing_handleHash_call (relisted summaries st)) as Hh.
    pose proof (grid_of_repos_relisted summaries st) as Hl.
    destruct (handleHash_call (relisted summaries st)) as [[next|e] st']; cbn [snd] in *;
      pose proof (same_listing_grid _ _ Hh Hl) as Hst'; [done|].
    by eapply grid_of_repos_unchanged; [| |exact Hst'].
  - intros r aT aR st. rewrite openProject_resume_run. by apply grid_of_repos_unchanged.
Qed.

Lemma find_repo_card r st : r ∈ repos st → is_Some (find_repo (full_name r) st).
Proof.
  intros Hin. unfold find_repo.
  destruct (List.find _ (repos st)) as [x|] eqn:Hfind; [by eexists|].
  apply list_elem_of_In in Hin.
  pose proof (find_none _ _ Hfind r Hin) as Hr. simpl in Hr.
  by rewrite String.eqb_refl in Hr.
Qed.

Lemma find_repo_elem fullName r st : find_repo fullName st = Some r → r ∈ repos st.
Proof.
  unfold find_repo. intros Hfind. apply find_some in Hfind as [Hin _].
  by apply list_elem_of_In.
Qed.

(** *** A suspended listener stays where it is until its answer is there *)

Lemma launch_pending m st k task :
  pending (m st).2 = pending st →
  pending st !! k = Some task → pending (launch m st) !! k = Some task.
Proof.
  unfold launch. destruct (m st) as [[[next|]|e] st']; cbn [snd]; intros Hp Hk;
    try by rewrite Hp.
  cbn [pending set_pending]. rewrite Hp. by apply lookup_app_l_Some.
Qed.

Lemma go_on_pending k' m st k task :
  k' ≠ k → pending (m st).2 = pending st →
  pending st !! k = Some task → pending (go_on k' m st) !! k = Some task.
Proof.
  unfold go_on. destruct (m st) as [[next|e] st']; cbn [snd]; intros Hne Hp Hk;
    cbn [pending set_pending]; rewrite Hp; by rewrite list_lookup_insert_ne.
Qed.

Lemma pending_openProject_call fullName st :
  pending (openProject_call fullName st).2 = pending st.
Proof. by rewrite openProject_call_run. Qed.

Lemma pending_closeModal st : pending (closeModal st) = pending st.
Proof. unfold closeModal. by destruct (startsWith _ project_prefix). Qed.

Lemma pending_handleHash_call st : pending (handleHash_call st).2 = pending st.
Proof.
  rewrite handleHash_call_run. destruct (startsWith (hash st) project_prefix).
  - destruct (decodeURIComponent _); [apply pending_openProject_call|done].
  - apply pending_closeModal.
Qed.

Lemma pending_applyFilters st : pending (applyFilters st) = pending st.
Proof. unfold applyFilters, renderGrid. by destruct (filtered st). Qed.

Lemma pending_loadBtn_click_repos a st : pending (loadBtn_click_repos a st).2 = pending st.
Proof.
  rewrite loadBtn_click_repos_run.
  destruct a as [|[|] status [summaries|]]; try done.
  pose proof (pending_handleHash_call (relisted summaries st)) as Hh.
  assert (Hl : pending (relisted summaries st) = pending st).
  { unfold relisted. cbv zeta. by rewrite pending_applyFilters. }
  destruct (handleHash_call (relisted summaries st)) as [[next|e] st']; cbn [snd] in *;
    [congruence|].
  cbn [pending set_alerts]. congruence.
Qed.

Lemma step_keeps_waiting ev st k task :
  (∀ a, ev ≠ Arrived k a) →
  pending st !! k = Some task → pending (step ev st) !! k = Some task.
Proof.
  intros Hev Hk.
  destruct ev as [| | |s|s|s|s| |h| |i| |[|]|k' a]; cbv beta iota delta [step];
    try done.
  - unfold script_start, applyTheme. by destruct (String.eqb _ "dark").
  - unfold themeToggle_click, applyTheme. by destruct (String.eqb _ "dark").
  - by rewrite pending_applyFilters.
  - by rewrite pending_applyFilters.
  - apply launch_pending; [|done]. rewrite loadBtn_click_start_run. cbn [snd].
    unfold setSessionToken.
    by destruct (truthy_string (trim (tokenInput st))), (truthy_string (trim (tokenInput st))).
  - apply launch_pending; [|done]. by rewrite pending_handleHash_call.
  - apply launch_pending; [|done]. apply pending_handleHash_call.
  - destruct (projectsGrid st !! i); [|done].
    apply launch_pending; [|done]. apply pending_openProject_call.
  - by rewrite pending_closeModal.
  - by rewrite pending_closeModal.
  - assert (Hne : k' ≠ k) by (intros ->; by apply (Hev a)).
    destruct (pending st !! k') as [[task'|]|]; try done.
    destruct task' as [u| |r], a as [ans|ans|aT aR]; cbn [resume]; try done;
      apply go_on_pending; try done.
    + by rewrite loadBtn_click_curated_run.
    + apply pending_loadBtn_click_repos.
    + unfold mbind, M_bind. by rewrite openProject_resume_run.
Qed.

Lemma steps_keep_waiting evs st k task :
  (∀ a, Arrived k a ∉ evs) →
  pending st !! k = Some task → pending (steps evs st) !! k = Some task.
Proof.
  unfold steps. revert st. induction evs as [|ev evs IH]; intros st Hevs Hk; simpl.
  - done.
  - apply IH.
    + intros a Ha. apply (Hevs a). apply elem_of_cons. by right.
    + apply step_keeps_waiting; [|done].
      intros a ->. apply (Hevs a). apply elem_of_cons. by left.
Qed.

(** X10.  Every event keeps the grid a rendering of repositories of
    [repos], in their order, however the listeners take their turns.  So on
    a page reached from such a page, a click on the title of any card opens
    a repository that is in [repos]: run on its own, that open ends with the
    detail view and never with the error message; and whatever happens
    before its two answers arrive, the open waits where it was suspended and
    writes the detail view when they are there. *)
Theorem card_click_opens_a_listed_repository (evs : list event) (st : page)
    (i : nat) (c : card) (ansT : answer topics_json) (ansR : answer readme_json) :
  grid_of_repos st →
  projectsGrid (steps evs st) !! i = Some c →
  let clicked := step (ProjectLinkClick i) (steps evs st) in
  let k := length (pending (steps evs st)) in
  grid_of_repos (steps evs st)
  ∧ (∃ view,
       projectDetail (run (openProject (card_data_repo c) ansT ansR) (steps evs st))
       = DetailShown view)
  ∧ ∃ r, r ∈ repos (steps evs st)
         ∧ pending clicked
           = (pending (steps evs st) ++ [Some (OpenAwaitsDetails (Some r))])%list
         ∧ ∀ later, (∀ a, Arrived k a ∉ later) →
             projectDetail (step (Arrived k (DetailsArrived ansT ansR))
                              (steps later clicked))
             = DetailShown (detail_view_of r (topics_of ansT)
                                           (readme_html (readme_of ansR))).
Proof.
  intros Hinv Hi clicked k.
  pose proof (grid_of_repos_steps evs st Hinv) as Hs.
  split; [done|].
  destruct Hs as (shown & Hsub & Hgrid).
  pose proof Hi as Hc.
  rewrite Hgrid, list_lookup_fmap in Hc.
  destruct (shown !! i) as [r0|] eqn:Hr; simpl in Hc; [|done].
  inversion Hc; subst c. clear Hc.
  assert (Hin : r0 ∈ repos (steps evs st)).
  { eapply elem_of_sublist; [|exact Hsub]. by eapply list_elem_of_lookup_2. }
  destruct (find_repo_card r0 _ Hin) as [r Hfind].
  change (card_data_repo (card_of r0)) with (full_name r0).
  split.
  - rewrite openProject_run. cbn [projectDetail set_projectDetail]. rewrite Hfind.
    by eexists.
  - exists r.
    assert (Hp : pending clicked
                 = (pending (steps evs st) ++ [Some (OpenAwaitsDetails (Some r))])%list).
    { subst clicked. cbv beta iota delta [step]. rewrite Hi.
      change (card_data_repo (card_of r0)) with (full_name r0).
      unfold launch. rewrite openProject_call_run, Hfind. reflexivity. }
    split_and!; [by eapply find_repo_elem|done|].
    intros later Hlater.
    assert (Hk : pending (steps later clicked) !! k
                 = Some (Some (OpenAwaitsDetails (Some r)))).
    { apply steps_keep_waiting; [done|]. rewrite Hp. subst k.
      by rewrite list_lookup_middle. }
    cbv beta iota delta [step]. rewrite Hk. cbn [resume].
    unfold go_on, mbind, M_bind. by rewrite openProject_resume_run.
Qed.

Lemma same_modal_consistent st st' :
  same_modal st st' → modal_consistent st → modal_consistent st'.
Proof. intros (Hh&Hm&Hd) H. unfold modal_consistent. by rewrite Hh, Hm. Qed.

Lemma modal_consistent_prefix st :
  startsWith (hash st) project_prefix = true → modal_consistent st.
Proof. intros Hp _. apply startsWith_split in Hp. by eexists. Qed.

Lemma modal_consistent_closeModal st : modal_consistent (closeModal st).
Proof.
  intros Hv. exfalso. apply Hv. unfold closeModal, class_add.
  destruct (startsWith _ project_prefix); cbn [projectModal set_hash set_projectDetail
    set_projectModal]; set_solver.
Qed.

Lemma modal_consistent_openProject_call fullName st :
  modal_consistent (openProject_call fullName st).2.
Proof.
  rewrite openProject_call_run. apply modal_consistent_prefix. apply startsWith_app.
Qed.

Lemma modal_consistent_handleHash_call st : modal_consistent (handleHash_call st).2.
Proof.
  rewrite handleHash_call_run.
  destruct (startsWith (hash st) project_prefix) eqn:Hp.
  - destruct (decodeURIComponent _) as [full|].
    + apply modal_consistent_openProject_call.
    + by apply modal_consistent_prefix.
  - apply modal_consistent_closeModal.
Qed.

Lemma same_modal_relisted summaries st : same_modal st (relisted summaries st).
Proof.
  unfold relisted, applyFilters. cbv zeta.
  match goal with
  | |- same_modal _ (renderGrid ?a ?b) =>
      destruct (renderGrid_keeps a b) as (_&(?&?&?)&_)
  end.
  unfold same_modal. by split_and!.
Qed.

Lemma modal_consistent_steps evs st : modal_consistent st → modal_consistent (steps evs st).
Proof.
  change (preserved modal_consistent st (steps evs st)).
  apply (steps_keeps (preserved modal_consistent)); clear evs st; unfold preserved.
  - by intros p st.
  - intros st. apply same_modal_consistent.
    unfold script_start, applyTheme, same_modal. by destruct (String.eqb _ "dark").
  - intros st. apply same_modal_consistent.
    unfold themeToggle_click, applyTheme, same_modal. by destruct (String.eqb _ "dark").
  - by intros st.
  - by intros s st.
  - by intros s st.
  - intros s st. apply same_modal_consistent. unfold applyFilters.
    by destruct (renderGrid_keeps (filtered (set_searchInput s st)) (set_searchInput s st))
      as (_&?&_).
  - intros s st. apply same_modal_consistent. unfold applyFilters.
    by destruct (renderGrid_keeps (filtered (set_langFilter s st)) (set_langFilter s st))
      as (_&?&_).
  - intros st. rewrite loadBtn_click_start_run. cbn [snd]. apply same_modal_consistent.
    unfold setSessionToken, same_modal.
    by destruct (truthy_string (trim (tokenInput st))), (truthy_string (trim (tokenInput st))).
  - intros h st _. apply modal_consistent_handleHash_call.
  - intros st _. apply modal_consistent_handleHash_call.
  - intros i c st _ _. apply modal_consistent_openProject_call.
  - intros st _. apply modal_consistent_closeModal.
  - intros u a st. by rewrite loadBtn_click_curated_run.
  - intros a st Hinv. rewrite loadBtn_click_repos_run.
    destruct a as [|[|] status [summaries|]]; try done.
    pose proof (modal_consistent_handleHash_call (relisted summaries st)) as Hh.
    by destruct (handleHash_call (relisted summaries st)) as [[next|e] st'].
  - intros r aT aR st. by rewrite openProject_resume_run.
Qed.

(** X11.  Every event keeps the modal and the hash in agreement, however the
    listeners take their turns: while the modal is displayed, the hash is a
    project hash. *)
Theorem modal_and_hash_stay_consistent (evs : list event) (st : page) :
  modal_consistent st → modal_consistent (steps evs st).
Proof. apply modal_consistent_steps. Qed.

(** X20.  The detail of a hidden modal is not always empty.  A project is
    opened through its hash and the modal is closed before the two answers
    are there: the hash is cleared and the modal hidden, and when the
    answers arrive the open still writes its view, or its error message,
    into the hidden modal. *)
Theorem late_answers_write_into_the_closed_modal (rest full : string)
    (ansT : answer topics_json) (ansR : answer readme_json) (st : page) :
  decodeURIComponent rest = Some full →
  let late :=
    steps [HashChanged ("#/project/" +:+ rest); ModalCloseClick;
           Arrived (length (pending st)) (DetailsArrived ansT ansR)] st in
  ¬ visible (projectModal late)
  ∧ hash late = ""
  ∧ projectDetail late =
      match find_repo full st with
      | Some r => DetailShown (detail_view_of r (topics_of ansT)
                                              (readme_html (readme_of ansR)))
      | None => DetailError (TypeErrorReading "name")
      end.
Proof.
  intros Hfull late. subst late. change "#/project/" with project_prefix.
  unfold steps. cbn [fold_left]. cbv beta iota delta [step].
  set (st0 := set_hash (project_prefix +:+ rest) st).
  assert (H1 : launch handleHash_call st0
               = set_pending (pending st ++ [Some (OpenAwaitsDetails (find_repo full st))])
                   (opening full st0)).
  { unfold launch. rewrite handleHash_call_run.
    change (hash st0) with (project_prefix +:+ rest).
    by rewrite startsWith_app, slice_from_app, Hfull, openProject_call_run. }
  rewrite H1. rewrite closeModal_eq. cbv zeta.
  change (hash (set_pending ?p (opening full st0)))
    with (project_prefix +:+ name_in_hash full).
  rewrite startsWith_app.
  match goal with
  | |- context [pending ?s !! length (pending st)] =>
      change (pending s)
        with (pending st ++ [Some (OpenAwaitsDetails (find_repo full st))])%list
  end.
  rewrite list_lookup_middle by done. cbn [resume].
  unfold go_on, mbind, M_bind. rewrite openProject_resume_run.
  split_and!.
  - unfold visible, class_add. intros Hv. apply Hv.
    cbn [projectModal set_pending set_projectDetail set_hash set_projectModal mret M_ret].
    set_solver.
  - reflexivity.
  - by destruct (find_repo full st).
Qed.

Lemma class_add_twice c cl : class_add c (class_add c cl) = class_add c cl.
Proof. unfold class_add. apply set_eq. intros x. set_unfold. tauto. Qed.

Lemma closeModal_twice st : closeModal (closeModal st) = closeModal st.
Proof.
  assert (Hempty : startsWith "" project_prefix = false).
  { vm_compute. reflexivity. }
  rewrite (closeModal_eq st). cbv zeta.
  destruct (startsWith (hash st) project_prefix) eqn:Hp; rewrite closeModal_eq; cbv zeta.
  - change (hash (set_hash "" ?x)) with "". rewrite Hempty.
    apply page_ext; try reflexivity. apply class_add_twice.
  - change (hash (set_projectDetail ?d (set_projectModal ?m st))) with (hash st).
    rewrite Hp. apply page_ext; try reflexivity. apply class_add_twice.
Qed.

(** X12.  Closing the modal twice is closing it once, and closing after
    opening a project always leaves no hash, a hidden modal and an empty
    detail, whatever the project and the answers were. *)
Theorem closeModal_settles (full : string) (ansT : answer topics_json)
    (ansR : answer readme_json) (st : page) :
  closeModal (closeModal st) = closeModal st
  ∧ hash (closeModal (run (openProject full ansT ansR) st)) = ""
  ∧ class_contains "hidden"
      (projectModal (closeModal (run (openProject full ansT ansR) st))) = true
  ∧ projectDetail (closeModal (run (openProject full ansT ansR) st)) = DetailEmpty.
Proof.
  split_and!.
  - apply closeModal_twice.
  - rewrite openProject_run, closeModal_eq. cbv zeta.
    change (hash (set_projectDetail ?d (set_requests ?r (set_projectModal ?m
              (set_hash ?h st))))) with h.
    by rewrite startsWith_app.
  - rewrite closeModal_eq. cbv zeta. unfold class_contains, class_add.
    destruct (startsWith _ project_prefix);
      (case_bool_decide as Hc; [done|]); exfalso; apply Hc;
      change (projectModal (set_hash ?h (set_projectDetail ?d (set_projectModal ?m ?s))))
        with m;
      change (projectModal (set_projectDetail ?d (set_projectModal ?m ?s))) with m;
      set_solver.
  - rewrite closeModal_eq. cbv zeta. by destruct (startsWith _ project_prefix).
Qed.

(** ** The requests of a modal open *)

Lemma split_on_no_sep c s : has_char c s = false → split_on c s = [s].
Proof.
  induction s as [|d s IH]; simpl; [done|].
  destruct (Ascii.eqb d c); simpl; [done|].
  intros Hs. by rewrite IH.
Qed.

Lemma split_on_first c a b :
  has_char c a = false → split_on c (a +:+ String c b) = a :: split_on c b.
Proof.
  induction a as [|d a IH]; intros Ha.
  - change (split_on c (String c b) = "" :: split_on c b).
    simpl. by rewrite Ascii.eqb_refl.
  - simpl in Ha. rewrite append_cons. simpl.
    destruct (Ascii.eqb d c) eqn:Hd; [done|].
    by rewrite IH.
Qed.

(** X14.  For a full name "owner/repo" (no slash inside either part) the
    two requests of a modal open go to the topics and the readme of that
    repository, and the loading view is headed by the repository's name.
    For a name without a slash the repository part is undefined, and the
    requests go to ".../undefined/topics" and ".../undefined/readme". *)
Theorem openProject_requests_name_the_repository (owner repo : string) (st : page) :
  has_char "/" owner = false → has_char "/" repo = false →
  map url (detail_requests (owner +:+ "/" +:+ repo) st)
  = ["https://api.github.com/repos/" +:+ owner +:+ "/" +:+ repo +:+ "/topics";
     "https://api.github.com/repos/" +:+ owner +:+ "/" +:+ repo +:+ "/readme"]
  ∧ projectDetail (openProject_start (owner +:+ "/" +:+ repo) st).2
    = DetailLoading repo
  ∧ map url (detail_requests owner st)
    = ["https://api.github.com/repos/" +:+ owner +:+ "/undefined/topics";
       "https://api.github.com/repos/" +:+ owner +:+ "/undefined/readme"]
  ∧ projectDetail (openProject_start owner st).2 = DetailLoading "undefined".
Proof.
  intros Ho Hr.
  assert (H2 : split_on "/" (owner +:+ "/" +:+ repo) = [owner; repo]).
  { change ("/" +:+ repo) with (String "/" repo).
    by rewrite split_on_first, split_on_no_sep. }
  assert (H1 : split_on "/" owner = [owner]) by by apply split_on_no_sep.
  split_and!.
  - unfold detail_requests. by rewrite H2.
  - rewrite openProject_start_run. unfold opening.
    cbn [snd projectDetail set_requests set_projectDetail].
    by rewrite H2.
  - unfold detail_requests. by rewrite H1.
  - rewrite openProject_start_run. unfold opening.
    cbn [snd projectDetail set_requests set_projectDetail].
    by rewrite H1.
Qed.

Lemma strip_newlines_app a b :
  strip_newlines (a +:+ b) = strip_newlines a +:+ strip_newlines b.
Proof.
  induction a as [|c a IH]; [done|].
  rewrite append_cons. simpl. rewrite IH. by destruct (Ascii.eqb c _).
Qed.

(** X15.  [fetchReadme] does not depend on how the base64 content is
    broken into lines: a line break inside the content changes neither the
    request nor the text that is returned. *)
Theorem fetchReadme_ignores_line_breaks (owner repo : option string) (status : Z)
    (a b : string) (st : page) :
  a ≠ "" →
  fetchReadme owner repo
    (Response true status
       (Some (ReadmeJson (Some (a +:+ String "010" EmptyString +:+ b))))) st
  = fetchReadme owner repo
      (Response true status (Some (ReadmeJson (Some (a +:+ b))))) st.
Proof.
  intros Ha.
  assert (Ht : ∀ x, truthy_opt (Some (a +:+ x)) = true).
  { intros x. destruct a; [done|]. by rewrite append_cons. }
  unfold fetchReadme, mbind, M_bind.
  destruct (fetchReadme_start owner repo st) as [[u|e] st1]; [|done].
  unfold fetchReadme_resume, mbind, M_bind.
  cbn [fetch_settle mret M_ret negb res_json content default].
  rewrite !Ht. unfold id. rewrite !strip_newlines_app.
  by change (strip_newlines (String "010" EmptyString)) with EmptyString.
Qed.

(** ** The curated document as an array *)





(** ** Curated data on the card, and the language options in use *)

Lemma card_text_truthy r : truthy_string (card_text (card_of r)) = true.
Proof.
  unfold card_of. cbn [card_text].
  destruct (description r) as [[|c d]|]; cbn [truthy_opt truthy_string default];
    try done;
    by destruct (curated_field Curated.short r) as [[|c' d']|].
Qed.

(** X17.  A curated entry with a description and tags shows on the card of
    the merged repository: the card's text is the curated description and
    its chips are the curated tags (an empty list of tags leaves no chip,
    the language is not shown then).  The text of a card is never empty. *)
Theorem curated_entry_shows_on_the_card (cur : document) (r : repo)
    (e : Curated.entry) (d : string) (ts : list string) :
  own_entry cur (name r) = Some (VEntry e) →
  Curated.description e = Some d → d ≠ "" →
  Curated.tags e = Some ts →
  card_text (card_of (merge_curated cur r)) = d
  ∧ card_chips (card_of (merge_curated cur r)) = ts
  ∧ card_title (card_of (merge_curated cur r)) = name r
  ∧ ∀ r', truthy_string (card_text (card_of r')) = true.
Proof.
  intros Hget Hd Hne Hts. apply truthy_string_true in Hne.
  assert (Hm : merge_curated cur r
               = with_description (Some d) (with_curated (Some (VEntry e)) r)).
  { destruct cur as [| | | | |props]; try done. simpl in Hget.
    rewrite merge_curated_object, Hget. simpl. by rewrite Hd; simpl; rewrite Hne. }
  rewrite Hm. split_and!.
  - unfold card_of. cbn [card_text with_description description truthy_opt default].
    by rewrite Hne.
  - unfold card_of, curated_field.
    cbn [card_chips with_description with_curated _curated truthy field].
    by rewrite Hts.
  - done.
  - apply card_text_truthy.
Qed.

(** X18.  Every language the filter offers after [buildLangOptions] leads
    somewhere: with nothing to search for, choosing an offered language
    shows at least one card, that of a repository in that language. *)
Theorem offered_language_shows_a_repository (st : page) (l : string) :
  toLowerCase (trim (searchInput st)) = "" →
  l ≠ "" →
  l ∈ langFilter_options (buildLangOptions (repos st) st) →
  ∃ r, r ∈ repos st
       ∧ language r = Some l
       ∧ card_of r ∈ projectsGrid
                       (step (LanguageChosen l) (buildLangOptions (repos st) st)).
Proof.
  intros Hq Hl Hin.
  destruct (buildLangOptions_offers_each_language_once_aux (repos st) st)
    as (langs & Hopts & _ & _ & _ & Hlangs).
  rewrite Hopts in Hin. apply elem_of_cons in Hin as [->|Hin]; [done|].
  apply Hlangs in Hin as (_ & r & Hr & Hlang).
  exists r. split_and!; [done|done|].
  cbv beta iota delta [step]. unfold applyFilters. rewrite renderGrid_grid.
  apply list_elem_of_fmap. exists r. split; [done|].
  unfold filtered. rewrite filter_keeps. apply list_elem_of_filter. split; [|done].
  split; [by right|left; exact Hq].
Qed.

End Further.

(** * Instances on the sample page

    The theorems above at concrete inputs, and the inputs on which the
    script does something else than a reading of its description would
    say. *)

#[local] Existing Instance AsciiHost.host.

(** The text a search runs over: the fields that are present, joined by
    single spaces, in lower case. *)
Example hay_of_a_curated_repository :
  hay (with_curated (Some (sample_entry "Hello-World"))
         (with_description (Some "My FIRST repo")
            (sample_repo "octocat" "Hello-World" (Some "C"))))
  = "hello-world my first repo c web demo".
Proof. reflexivity. Qed.

(** A search for " WEB  " among three repositories, one of them curated. *)
Example search_finds_the_curated_tag :
  map name
    (filtered
       (set_searchInput " WEB  "
          (set_repos
             [sample_repo "octocat" "Spoon-Knife" (Some "HTML");
              with_curated (Some (sample_entry "Hello-World"))
                (sample_repo "octocat" "Hello-World" (Some "C"));
              sample_repo "octocat" "webhooks" None]
             fresh_page)))
  = ["Hello-World"; "webhooks"].
Proof. reflexivity. Qed.

(** A link to a project whose name is percent-encoded. *)
Example handleHash_decodes_the_name :
  hash (run (handleHash NetworkFailure NetworkFailure)
          (set_hash "#/project/octocat%2FHello-World" fresh_page))
  = "#/project/octocat/Hello-World".
Proof. reflexivity. Qed.

(** Merging a curated entry that supplies a description. *)
Example merge_takes_the_curated_description :
  description
    (merge_curated (DObject {["Hello-World" := sample_entry "Hello-World"]})
       (sample_repo "octocat" "Hello-World" None))
  = Some "Hand-written".
Proof. reflexivity. Qed.

(** A repository named after a property every object inherits is merged
    with that property, though the curated document holds nothing. *)
Lemma merge_curated_constructor_sample :
  _curated (merge_curated (DObject ∅) (sample_repo "octocat" "constructor" None))
  = Some VNative
  ∧ merge_curated (DObject ∅) (sample_repo "octocat" "constructor" None)
    ≠ sample_repo "octocat" "constructor" None.
Proof.
  apply (merge_curated_takes_what_objects_inherit ∅
           (sample_repo "octocat" "constructor" None)).
  - apply list_elem_of_here.
  - reflexivity.
  - reflexivity.
Defined.

Lemma merge_curated_overrides_sample :
  let r := sample_repo "octocat" "Hello-World" (Some "C") in
  let m := merge_curated (DObject {["Hello-World" := sample_entry "Hello-World"]}) r in
  name m = name r ∧ full_name m = full_name r ∧ language m = language r
  ∧ stargazers_count m = stargazers_count r ∧ html_url m = html_url r
  ∧ homepage m = homepage r ∧ updated_at m = updated_at r
  ∧ _curated m = Some (sample_entry "Hello-World")
  ∧ description m = Some "Hand-written".
Proof.
  refine (merge_curated_overrides {["Hello-World" := sample_entry "Hello-World"]}
            (sample_repo "octocat" "Hello-World" (Some "C")) _).
  right. by eexists.
Defined.

(** Opening a project whose name holds a space leaves "%20" in the hash,
    not the name; and on a hash whose rest is not a URI component the
    handler throws, and neither opens nor closes anything. *)
Lemma openProject_encodes_the_hash :
  hash (run (openProject "octocat/my repo" NetworkFailure NetworkFailure) fresh_page)
  = "#/project/octocat/my%20repo"
  ∧ String.eqb
      (hash (run (openProject "octocat/my repo" NetworkFailure NetworkFailure) fresh_page))
      ("#/project/" +:+ "octocat/my repo")
    = false
  ∧ handleHash NetworkFailure NetworkFailure (set_hash "#/project/%" fresh_page)
    = (Thrown URIError, set_hash "#/project/%" fresh_page).
Proof. split_and!; reflexivity. Qed.

(** The page after the theme toggle is clicked once, or after the script is
    merely loaded, has a "theme" entry in the persistent storage that was
    not there before. *)
Lemma theme_is_written_to_localStorage :
  localStorage fresh_page !! "theme" = None
  ∧ localStorage (step (host := AsciiHost.host) ThemeToggleClick fresh_page) !! "theme"
    = Some "dark"
  ∧ localStorage (step (host := AsciiHost.host) ScriptLoaded fresh_page) !! "theme"
    = Some "dark".
Proof. split_and!; reflexivity. Qed.

Lemma storage_footprint_sample :
  (localStorage
     (steps (host := AsciiHost.host)
        [ScriptLoaded; TokenTyped "t0k3n"; LoadClick;
         Arrived 0 (CuratedArrived NetworkFailure); ThemeToggleClick;
         Arrived 0 (ReposArrived NetworkFailure); ClearTokenClick]
        (set_localStorage {["visits" := "3"]} fresh_page)) !! "visits"
   = Some "3")
  ∧ (sessionStorage
       (steps (host := AsciiHost.host)
          [ScriptLoaded; TokenTyped "t0k3n"; LoadClick;
           Arrived 0 (CuratedArrived NetworkFailure); ThemeToggleClick;
           Arrived 0 (ReposArrived NetworkFailure); ClearTokenClick]
          (set_sessionStorage {["cart" := "7"]} fresh_page)) !! "cart"
     = Some "7").
Proof.
  split.
  - refine (proj1 (storage_footprint (host := AsciiHost.host) _
                     (set_localStorage {["visits" := "3"]} fresh_page) "visits") _).
    discriminate.
  - refine (proj2 (storage_footprint (host := AsciiHost.host) _
                     (set_sessionStorage {["cart" := "7"]} fresh_page) "cart") _).
    discriminate.
Defined.

(** Two fetched summaries with one full name stay two merged summaries with
    that full name. *)
Lemma load_keeps_a_repeated_full_name :
  map full_name
    (repos
       (run (loadBtn_click (host := AsciiHost.host) NetworkFailure
               (Response true 200
                  (Some [sample_repo "octocat" "Hello-World" None;
                         sample_repo "octocat" "Hello-World" (Some "C")]))
               NetworkFailure NetworkFailure)
            fresh_page))
  = ["octocat/Hello-World"; "octocat/Hello-World"].
Proof. vm_compute. reflexivity. Qed.

(** The one request of [fetchRepos] sets the page size itself. *)
Lemma fetchRepos_sets_the_page_size :
  map url (requests (fetchRepos (host := AsciiHost.host) "octocat"
                       NetworkFailure fresh_page).2)
  = ["https://api.github.com/users/octocat/repos?per_page=100&sort=updated"]
  ∧ map default_page_size
      (requests (fetchRepos (host := AsciiHost.host) "octocat"
                   NetworkFailure fresh_page).2)
    = [false].
Proof. split; vm_compute; reflexivity. Qed.


Lemma openProject_listed_sample :
  ∃ view,
    projectDetail
      (run (openProject (host := AsciiHost.host) "Octocat/hello-world" NetworkFailure
              (Response true 200 (Some (ReadmeJson (Some "SGVsbG8=")))))
           (set_repos [sample_repo "octocat" "Hello-World" None] fresh_page))
    = DetailShown view
    ∧ view_readme_html view =
        match readme_of (host := AsciiHost.host)
                (Response true 200 (Some (ReadmeJson (Some "SGVsbG8=")))) with
        | Some text => if truthy_string text
                       then DOMPurify_sanitize (marked_parse text)
                       else no_readme_html
        | None => no_readme_html
        end.
Proof.
  apply (openProject_listed_renders_the_readme (host := AsciiHost.host) _
           (sample_repo "octocat" "Hello-World" None)).
  reflexivity.
Defined.

Lemma openProject_two_requests_sample :
  requests (openProject_start "octocat/Hello-World"
              (set_repos [sample_repo "octocat" "Hello-World" None] fresh_page)).2
  = [Request "https://api.github.com/repos/octocat/Hello-World/topics"
       [("Content-Type", "application/json");
        ("Accept", "application/vnd.github.mercy-preview+json")] false;
     Request "https://api.github.com/repos/octocat/Hello-World/readme"
       [("Content-Type", "application/json")] false]
  ∧ ∃ view,
      projectDetail
        (run (openProject "octocat/Hello-World" NetworkFailure (Response false 404 None))
             (set_repos [sample_repo "octocat" "Hello-World" None] fresh_page))
      = DetailShown view
      ∧ view_title view = "Hello-World"
      ∧ view_chips view = []
      ∧ view_readme_html view = no_readme_html.
Proof.
  pose proof (openProject_two_parallel_requests "octocat/Hello-World"
                NetworkFailure (Response false 404 None)
                (set_repos [sample_repo "octocat" "Hello-World" None] fresh_page))
    as (Hreq & _ & _ & Hshown).
  split; [exact Hreq|].
  destruct (Hshown (sample_repo "octocat" "Hello-World" None) eq_refl)
    as (view & Hview & Htitle & Hchips & Hreadme).
  exists view. split_and!; [exact Hview|exact Htitle|apply Hchips; exact I|].
  apply Hreadme. by left.
Defined.

(** ** The further properties at concrete inputs *)


Lemma load_failure_sample :
  let st' := run (loadBtn_click NetworkFailure (Response false 403 None)
                    NetworkFailure NetworkFailure) fresh_page in
  repos st' = repos fresh_page
  ∧ projectsGrid st' = projectsGrid fresh_page
  ∧ hash st' = hash fresh_page
  ∧ projectModal st' = projectModal fresh_page
  ∧ projectDetail st' = projectDetail fresh_page
  ∧ alerts st' = (alerts fresh_page ++ [ErrorLoadingRepos (GitHubApiError 403)])%list
  ∧ curated st' = loadCurated_result NetworkFailure.
Proof.
  apply (load_failure_keeps_the_list NetworkFailure (Response false 403 None)
           NetworkFailure NetworkFailure (GitHubApiError 403) fresh_page).
  reflexivity.
Defined.


Lemma card_click_sample :
  let evs := [ScriptLoaded; LoadClick;
              Arrived 0 (CuratedArrived NetworkFailure);
              Arrived 0
                (ReposArrived
                   (Response true 200
                      (Some [sample_repo "octocat" "Spoon-Knife" (Some "HTML");
                             sample_repo "octocat" "Hello-World" (Some "C")])));
              SearchTyped "hello"] in
  let clicked := step (ProjectLinkClick 0) (steps evs fresh_page) in
  let k := length (pending (steps evs fresh_page)) in
  grid_of_repos (steps evs fresh_page)
  ∧ (∃ view,
       projectDetail
         (run (openProject
                 (card_data_repo (card_of (sample_repo "octocat" "Hello-World" (Some "C"))))
                 NetworkFailure NetworkFailure)
              (steps evs fresh_page))
       = DetailShown view)
  ∧ ∃ r, r ∈ repos (steps evs fresh_page)
         ∧ pending clicked
           = (pending (steps evs fresh_page) ++ [Some (OpenAwaitsDetails (Some r))])%list
         ∧ ∀ later, (∀ a, Arrived k a ∉ later) →
             projectDetail (step (Arrived k (DetailsArrived NetworkFailure NetworkFailure))
                              (steps later clicked))
             = DetailShown (detail_view_of r (topics_of NetworkFailure)
                                           (readme_html (readme_of NetworkFailure))).
Proof.
  apply (card_click_opens_a_listed_repository _ fresh_page 0
           (card_of (sample_repo "octocat" "Hello-World" (Some "C")))).
  - exists []. split; [apply sublist_nil_l|reflexivity].
  - vm_compute. reflexivity.
Defined.

Lemma modal_consistent_sample :
  modal_consistent
    (steps [HashChanged "#/project/octocat%2FHello-World"; ModalCloseClick;
            Arrived 0 (DetailsArrived NetworkFailure NetworkFailure);
            HashChanged "#/project/%"]
       fresh_page).
Proof.
  apply (modal_and_hash_stay_consistent _ fresh_page).
  intros Hv. exfalso. apply Hv. vm_compute. reflexivity.
Defined.

Lemma late_answers_sample :
  let late :=
    steps [HashChanged ("#/project/" +:+ "octocat%2FHello-World"); ModalCloseClick;
           Arrived 0 (DetailsArrived NetworkFailure NetworkFailure)]
      (set_repos [sample_repo "octocat" "Hello-World" None] fresh_page) in
  ¬ visible (projectModal late)
  ∧ hash late = ""
  ∧ projectDetail late
    = DetailShown (detail_view_of (sample_repo "octocat" "Hello-World" None) []
                     no_readme_html).
Proof.
  refine (late_answers_write_into_the_closed_modal "octocat%2FHello-World"
            "octocat/Hello-World" NetworkFailure NetworkFailure
            (set_repos [sample_repo "octocat" "Hello-World" None] fresh_page) _).
  reflexivity.
Defined.

Lemma openProject_requests_sample :
  map url (detail_requests "octocat/Hello-World" fresh_page)
  = ["https://api.github.com/repos/octocat/Hello-World/topics";
     "https://api.github.com/repos/octocat/Hello-World/readme"]
  ∧ projectDetail (openProject_start "octocat/Hello-World" fresh_page).2
    = DetailLoading "Hello-World"
  ∧ map url (detail_requests "octocat" fresh_page)
    = ["https://api.github.com/repos/octocat/undefined/topics";
       "https://api.github.com/repos/octocat/undefined/readme"]
  ∧ projectDetail (openProject_start "octocat" fresh_page).2 = DetailLoading "undefined".
Proof.
  apply (openProject_requests_name_the_repository "octocat" "Hello-World" fresh_page);
    reflexivity.
Defined.

Lemma fetchReadme_line_break_sample :
  fetchReadme (Some "octocat") (Some "Hello-World")
    (Response true 200
       (Some (ReadmeJson (Some ("SGVs" +:+ String "010" EmptyString +:+ "bG8=")))))
    fresh_page
  = fetchReadme (Some "octocat") (Some "Hello-World")
      (Response true 200 (Some (ReadmeJson (Some ("SGVs" +:+ "bG8="))))) fresh_page.
Proof.
  apply (fetchReadme_ignores_line_breaks (Some "octocat") (Some "Hello-World") 200
           "SGVs" "bG8=" fresh_page).
  discriminate.
Defined.


Lemma curated_entry_on_the_card_sample :
  card_text (card_of (merge_curated
                        (DObject {["Hello-World" := sample_entry "Hello-World"]})
                        (sample_repo "octocat" "Hello-World" (Some "C"))))
  = "Hand-written"
  ∧ card_chips (card_of (merge_curated
                           (DObject {["Hello-World" := sample_entry "Hello-World"]})
                           (sample_repo "octocat" "Hello-World" (Some "C"))))
    = ["web"; "demo"]
  ∧ card_title (card_of (merge_curated
                           (DObject {["Hello-World" := sample_entry "Hello-World"]})
                           (sample_repo "octocat" "Hello-World" (Some "C"))))
    = "Hello-World"
  ∧ ∀ r', truthy_string (card_text (card_of r')) = true.
Proof.
  refine (curated_entry_shows_on_the_card
            (DObject {["Hello-World" := sample_entry "Hello-World"]})
            (sample_repo "octocat" "Hello-World" (Some "C"))
            {| Curated.repo := Some "Hello-World";
               Curated.description := Some "Hand-written";
               Curated.short := None; Curated.tags := Some ["web"; "demo"] |}
            "Hand-written" ["web"; "demo"] _ _ _ _);
    try reflexivity.
  discriminate.
Defined.

Lemma offered_language_sample :
  ∃ r, r ∈ [sample_repo "octocat" "Spoon-Knife" (Some "HTML");
            sample_repo "octocat" "Hello-World" (Some "C")]
       ∧ language r = Some "C"
       ∧ card_of r
         ∈ projectsGrid
             (step (LanguageChosen "C")
                (buildLangOptions
                   [sample_repo "octocat" "Spoon-Knife" (Some "HTML");
                    sample_repo "octocat" "Hello-World" (Some "C")]
                   (set_repos [sample_repo "octocat" "Spoon-Knife" (Some "HTML");
                               sample_repo "octocat" "Hello-World" (Some "C")]
                      fresh_page))).
Proof.
  refine (offered_language_shows_a_repository
            (set_repos [sample_repo "octocat" "Spoon-Knife" (Some "HTML");
                        sample_repo "octocat" "Hello-World" (Some "C")] fresh_page)
            "C" _ _ _).
  - reflexivity.
  - discriminate.
  - vm_compute. apply elem_of_cons. right. apply elem_of_cons. left. reflexivity.
Defined.
